(** * EventosLast: a shallow embedding of the FlowAgility event harvester

    The development follows the two Python programs of the repository:

    - [flow_events.py]: the streaming harvester.  Its [EventStreamer]
      (append-only JSONL log, periodic gzip snapshots, optional upload by an
      external script), the helper [_safe_run], the text normaliser [_clean],
      the per-container body of the loop of [extract_events] and the loop
      itself, which hands every record to the streamer, and the session
      helpers [_login] and [_full_scroll].
    - [01EventosPast.py]: the past-events harvester.  Its
      [extract_event_details], [_is_login_page], [_login],
      [_ensure_logged_in], [_full_scroll] and [_handle_pagination].

    Python values are modelled as follows.  A [str] is the list of its code
    points; a [dict] is an association list in insertion order; an exception
    is a value of [exn] carried by the [Raise] branch of [result]; code with
    effects is a function from a state to a [result] and a new state.  What
    the programs obtain from libraries and from the outside world
    (Unicode normalisation, URL resolution, gzip, the clock, child
    processes, the Selenium driver) enters as parameters. *)

From Stdlib Require Import ZArith NArith List String Ascii Bool Lia.
From stdpp Require Import gmap.
Import ListNotations.

(* ===================================================================== *)
(** ** Python strings *)
(* ===================================================================== *)

Module Py.

(** A Python [str]: its code points, in order. *)
Abbreviation char := N.
Abbreviation str := (list N).

(** Decoding of the UTF-8 bytes of a literal of this file into code points,
    so that the literals of the Python sources can be written as they are. *)
Fixpoint utf8_decode (bs : list N) : str :=
  match bs with
  | [] => []
  | b0 :: t0 =>
    if (b0 <? 0x80)%N then b0 :: utf8_decode t0
    else if (b0 <? 0xE0)%N then
      match t0 with
      | b1 :: t1 =>
        (N.land b0 0x1F * 64 + N.land b1 0x3F)%N :: utf8_decode t1
      | _ => [b0]
      end
    else if (b0 <? 0xF0)%N then
      match t0 with
      | b1 :: b2 :: t2 =>
        (N.land b0 0x0F * 4096 + N.land b1 0x3F * 64 + N.land b2 0x3F)%N
          :: utf8_decode t2
      | _ => [b0]
      end
    else
      match t0 with
      | b1 :: b2 :: b3 :: t3 =>
        (N.land b0 0x07 * 262144 + N.land b1 0x3F * 4096
         + N.land b2 0x3F * 64 + N.land b3 0x3F)%N :: utf8_decode t3
      | _ => [b0]
      end
  end.

Definition lit (s : string) : str :=
  utf8_decode (List.map N_of_ascii (list_ascii_of_string s)).
Arguments lit : simpl never.

Definition chr_eqb (a b : char) : bool := (a =? b)%N.

Fixpoint str_eqb (a b : str) : bool :=
  match a, b with
  | [], [] => true
  | x :: a', y :: b' => chr_eqb x y && str_eqb a' b'
  | _, _ => false
  end.

(** [c in chars] for a single character. *)
Definition chr_in (c : char) (chars : str) : bool := existsb (chr_eqb c) chars.

(** [s.startswith(p)]. *)
Fixpoint startswith (p s : str) : bool :=
  match p, s with
  | [], _ => true
  | a :: p', b :: s' => chr_eqb a b && startswith p' s'
  | _ :: _, [] => false
  end.

(** [needle in hay] for strings. *)
Fixpoint contains (needle hay : str) : bool :=
  startswith needle hay ||
  match hay with
  | [] => false
  | _ :: t => contains needle t
  end.

(** [s.replace(old, new)] for a non-empty [old]: the occurrences are found
    left to right and do not overlap.  [skip] counts the characters of a
    matched occurrence that are still to be passed over. *)
Fixpoint replace_from (old new : str) (skip : nat) (s : str) : str :=
  match s with
  | [] => []
  | c :: t =>
    match skip with
    | S k => replace_from old new k t
    | O =>
      if startswith old s
      then new ++ replace_from old new (length old - 1) t
      else c :: replace_from old new 0 t
    end
  end.

Definition replace (old new s : str) : str := replace_from old new 0 s.

Fixpoint lstrip_chars (chars s : str) : str :=
  match s with
  | [] => []
  | c :: t => if chr_in c chars then lstrip_chars chars t else s
  end.

Definition rstrip_chars (chars s : str) : str :=
  rev (lstrip_chars chars (rev s)).

(** [s.strip(chars)]. *)
Definition strip_chars (chars s : str) : str :=
  rstrip_chars chars (lstrip_chars chars s).

(** [c.isspace()]: the code points Python counts as white space. *)
Definition isspace (c : char) : bool :=
  ((0x09 <=? c) && (c <=? 0x0D) || (0x1C <=? c) && (c <=? 0x20)
   || (c =? 0x85) || (c =? 0xA0) || (c =? 0x1680)
   || (0x2000 <=? c) && (c <=? 0x200A)
   || (c =? 0x2028) || (c =? 0x2029) || (c =? 0x202F) || (c =? 0x205F)
   || (c =? 0x3000))%N.

Fixpoint lstrip (s : str) : str :=
  match s with
  | [] => []
  | c :: t => if isspace c then lstrip t else s
  end.

(** [s.strip()]. *)
Definition strip (s : str) : str := rev (lstrip (rev (lstrip s))).

(** [sep.join(parts)]. *)
Fixpoint join (sep : str) (parts : list str) : str :=
  match parts with
  | [] => []
  | [p] => p
  | p :: rest => p ++ sep ++ join sep rest
  end.

(** Decimal digits, for [str(n)] and the f-string fields that print numbers. *)
Fixpoint digits_of_uint (d : Decimal.uint) : str :=
  match d with
  | Decimal.Nil => []
  | Decimal.D0 r => 48%N :: digits_of_uint r
  | Decimal.D1 r => 49%N :: digits_of_uint r
  | Decimal.D2 r => 50%N :: digits_of_uint r
  | Decimal.D3 r => 51%N :: digits_of_uint r
  | Decimal.D4 r => 52%N :: digits_of_uint r
  | Decimal.D5 r => 53%N :: digits_of_uint r
  | Decimal.D6 r => 54%N :: digits_of_uint r
  | Decimal.D7 r => 55%N :: digits_of_uint r
  | Decimal.D8 r => 56%N :: digits_of_uint r
  | Decimal.D9 r => 57%N :: digits_of_uint r
  end.

Definition str_of_N (n : N) : str := digits_of_uint (N.to_uint n).

Definition str_of_Z (z : Z) : str :=
  match z with
  | Z0 => [48%N]
  | Zpos p => str_of_N (Npos p)
  | Zneg p => 45%N :: str_of_N (Npos p)
  end.

(** Two digits with a leading zero, the [%m %d %H %M %S] fields of strftime. *)
Definition pad2 (n : N) : str :=
  [(48 + (n / 10) mod 10)%N; (48 + n mod 10)%N].

End Py.

Export Py.


(* ===================================================================== *)
(** ** Exceptions and effects *)
(* ===================================================================== *)

Module Exc.

(** The exception classes the programs can meet.  All of them derive from
    Python's [Exception]; the two Selenium classes the pagination loop names
    are kept apart from the other driver errors. *)
Inductive exn_class :=
| ValueError
| ZeroDivisionError
| FileNotFoundError
| OSError
| TimeoutException
| NoSuchElementException
| WebDriverException.

(** An exception object: its class and [str(e)]. *)
Record exn := Exn { exn_class_of : exn_class; exn_msg : str }.

Inductive result (A : Type) : Type :=
| Ok (a : A)
| Raise (e : exn).
Arguments Ok {A} a.
Arguments Raise {A} e.

Definition is_ok {A} (r : result A) : bool :=
  match r with Ok _ => true | Raise _ => false end.

(** Code with effects on a state [S] that may raise.  The state reached when
    an exception is raised is kept: what was written stays written. *)
Definition M (S A : Type) : Type := S -> result A * S.

Definition ret {S A} (a : A) : M S A := fun s => (Ok a, s).

Definition raise {S A} (e : exn) : M S A := fun s => (Raise e, s).

Definition bind {S A B} (m : M S A) (k : A -> M S B) : M S B :=
  fun s =>
    match m s with
    | (Ok a, s') => k a s'
    | (Raise e, s') => (Raise e, s')
    end.

(** [try: m  except Exception as e: h e]. *)
Definition try_except {S A} (m : M S A) (h : exn -> M S A) : M S A :=
  fun s =>
    match m s with
    | (Ok a, s') => (Ok a, s')
    | (Raise e, s') => h e s'
    end.

Definition lift {S A} (r : result A) : M S A := fun s => (r, s).

Definition gets {S A} (f : S -> A) : M S A := fun s => (Ok (f s), s).

Definition modify {S} (f : S -> S) : M S unit := fun s => (Ok tt, f s).

End Exc.

Export Exc.

Notation "'let!' x ':=' m 'in' k" := (bind m (fun x => k))
  (at level 10, x name, m at level 200, k at level 200).
Notation "'run!' m 'in' k" := (bind m (fun _ => k))
  (at level 10, m at level 200, k at level 200).

(* ===================================================================== *)
(** ** Event records and their JSON lines *)
(* ===================================================================== *)

Module Json.

(** The values an event record holds: text, or a nested mapping (the links
    of the event).  A [dict] keeps its keys in insertion order. *)
#[local] Set Warnings "-register-all".
Inductive pyval :=
| PStr (s : str)
| PDict (d : list (str * pyval)).
#[local] Set Warnings "register-all".

Definition dict := list (str * pyval).

(** [key in d]. *)
Fixpoint has_key {V} (k : str) (d : list (str * V)) : bool :=
  match d with
  | [] => false
  | (k', _) :: rest => str_eqb k k' || has_key k rest
  end.

(** [d.get(key)]. *)
Fixpoint dict_get {V} (k : str) (d : list (str * V)) : option V :=
  match d with
  | [] => None
  | (k', v) :: rest => if str_eqb k k' then Some v else dict_get k rest
  end.

(** [d[key] = v]: a key already present keeps its place. *)
Fixpoint dict_set {V} (k : str) (v : V) (d : list (str * V)) : list (str * V) :=
  match d with
  | [] => [(k, v)]
  | (k', v') :: rest =>
    if str_eqb k k' then (k, v) :: rest else (k', v') :: dict_set k v rest
  end.

Definition hex_digit (n : N) : char :=
  if (n <? 10)%N then (48 + n)%N else (87 + n)%N.

(** One character inside a JSON string, as [json.dumps(.., ensure_ascii=False)]
    writes it: the quote, the backslash and the control characters below
    0x20 are escaped, everything else is written as it is. *)
Definition escape_char (c : char) : str :=
  if (c =? 0x22)%N then lit "\" ++ [0x22%N]
  else if (c =? 0x5C)%N then lit "\\"
  else if (c =? 0x0A)%N then lit "\n"
  else if (c =? 0x0D)%N then lit "\r"
  else if (c =? 0x09)%N then lit "\t"
  else if (c =? 0x08)%N then lit "\b"
  else if (c =? 0x0C)%N then lit "\f"
  else if (c <? 0x20)%N
       then lit "\u00" ++ [hex_digit (c / 16); hex_digit (c mod 16)]
  else [c].

Definition encode_basestring (s : str) : str :=
  [0x22%N] ++ flat_map escape_char s ++ [0x22%N].

(** [json.dumps(v, ensure_ascii=False)], with the default separators. *)
Fixpoint dumps (v : pyval) : str :=
  match v with
  | PStr s => encode_basestring s
  | PDict d =>
    lit "{" ++
    (fix items (l : list (str * pyval)) : str :=
       match l with
       | [] => []
       | (k, x) :: rest =>
         encode_basestring k ++ lit ": " ++ dumps x ++
         match rest with
         | [] => []
         | _ :: _ => lit ", " ++ items rest
         end
       end) d
    ++ lit "}"
  end.

End Json.

Export Json.

(* ===================================================================== *)
(** ** flow_events.py: the streamer *)
(* ===================================================================== *)

Module Stream.

Definition nl : str := [0x0A%N].

(** The fields of [time.localtime()] that the two timestamps print. *)
Record struct_time := StructTime {
  tm_year : N; tm_mon : N; tm_mday : N;
  tm_hour : N; tm_min : N; tm_sec : N }.

(** [time.strftime("%Y%m%d")]. *)
Definition strftime_day (t : struct_time) : str :=
  str_of_N (tm_year t) ++ pad2 (tm_mon t) ++ pad2 (tm_mday t).

(** [time.strftime("%Y%m%d_%H%M%S")]. *)
Definition strftime_full (t : struct_time) : str :=
  strftime_day t ++ lit "_" ++
  pad2 (tm_hour t) ++ pad2 (tm_min t) ++ pad2 (tm_sec t).

(** What [subprocess.run(cmd, check=False, ...)] comes back with: a
    completed process, or an exception (the program could not be started). *)
Inductive run_outcome :=
| Completed (returncode : Z) (out err : str)
| Failed (e : exn).

(** What the streamer does to the outside, in the order it does it. *)
Inductive io_event :=
| IoPrint (line : str)
| IoMkdir (path : str)
| IoTouch (path : str)
| IoAppend (path data : str)
| IoWriteGz (path payload : str)
| IoRun (cmd : list str).

(** The outside of the streamer: the files (path to contents; directories
    are not kept), the number of times the outside has been asked for the
    time or for a child process, and what has been done so far.  Only the
    streamer changes the files: a child process leaves them as they are,
    and a write does not fail. *)
Record world := World {
  fs : gmap str str;
  epoch : nat;
  trace : list io_event }.

(** The fields of an [EventStreamer] object. *)
Record streamer := Streamer {
  out_dir : str;
  stream_file : str;
  snapshot_every : Z;
  count : Z;
  uploader : str }.

(** A method runs on the object and the outside. *)
Definition ctx : Type := streamer * world.

(** [pathlib]: [d / name] for a relative [name]. *)
Definition path_join (d name : str) : str := d ++ lit "/" ++ name.

(** [Path.name]: what follows the last slash. *)
Fixpoint path_name_from (acc p : str) : str :=
  match p with
  | [] => acc
  | c :: t => if chr_eqb c 0x2F%N then path_name_from [] t
              else path_name_from (acc ++ [c]) t
  end.

Definition path_name (p : str) : str := path_name_from [] p.

(** [a % b] on Python integers. *)
Definition py_mod (a b : Z) : result Z :=
  if (b =? 0)%Z
  then Raise (Exn ZeroDivisionError (lit "integer modulo by zero"))
  else Ok (a mod b)%Z.

(** The line of a record in the log. *)
Definition line_of (ev : dict) : str := dumps (PDict ev) ++ nl.


(** [Path("scripts/upload_event.sh")]. *)
Definition UPLOADER : str := lit "scripts/upload_event.sh".

Section Streamer.

(** The clock: the local time at the n-th question to the outside. *)
Variable localtime : nat -> struct_time.
(** The child process started at the n-th question to the outside. *)
Variable subprocess_run : nat -> list str -> run_outcome.
(** [gzip]: the bytes of the compressed file for a payload. *)
Variable gzip_compress : str -> str.

Definition emit (e : io_event) : M world unit :=
  modify (fun w => World (fs w) (epoch w) (trace w ++ [e])).

Definition print (line : str) : M world unit := emit (IoPrint line).

(** [Path.exists()]. *)
Definition path_exists (p : str) : M world bool :=
  gets (fun w => match fs w !! p with Some _ => true | None => false end).

(** [Path.touch()]. *)
Definition touch (p : str) : M world unit :=
  modify (fun w =>
    World (match fs w !! p with Some _ => fs w | None => <[p := []]> (fs w) end)
          (epoch w) (trace w ++ [IoTouch p])).

(** [with p.open("a") as fw: fw.write(data)]. *)
Definition file_append (p data : str) : M world unit :=
  modify (fun w =>
    World (<[p := default [] (fs w !! p) ++ data]> (fs w))
          (epoch w) (trace w ++ [IoAppend p data])).

(** [p.open("rb").read()]. *)
Definition file_read (p : str) : M world str :=
  fun w =>
    match fs w !! p with
    | Some data => (Ok data, w)
    | None => (Raise (Exn FileNotFoundError p), w)
    end.

(** [gzip.open(p, "wb")]: the file is created, or emptied. *)
Definition gzip_open (p : str) : M world unit :=
  modify (fun w => World (<[p := gzip_compress []]> (fs w)) (epoch w) (trace w)).

(** [gz.write(payload)] and the close of the gzip file. *)
Definition gzip_write (p payload : str) : M world unit :=
  modify (fun w =>
    World (<[p := gzip_compress payload]> (fs w))
          (epoch w) (trace w ++ [IoWriteGz p payload])).

Definition clock : M world struct_time :=
  fun w => (Ok (localtime (epoch w)), World (fs w) (S (epoch w)) (trace w)).

Definition _ts_day : M world str :=
  let! t := clock in ret (strftime_day t).

Definition _ts_full : M world str :=
  let! t := clock in ret (strftime_full t).

(** [subprocess.run(cmd, check=False, ...)]. *)
Definition run_process (cmd : list str) : M world (Z * str * str) :=
  fun w =>
    let w' := World (fs w) (S (epoch w)) (trace w ++ [IoRun cmd]) in
    match subprocess_run (epoch w) cmd with
    | Completed rc out err => (Ok (rc, out, err), w')
    | Failed e => (Raise e, w')
    end.

Definition uploader_warning (rc : Z) (out err : str) : str :=
  lit "⚠️  Uploader devolvió código " ++ str_of_Z rc ++ nl ++
  lit "STDOUT:" ++ nl ++ out ++ nl ++ lit "STDERR:" ++ nl ++ err.

Definition run_error_warning (cmd : list str) (e : exn) : str :=
  lit "⚠️  Error ejecutando " ++ join (lit " ") cmd ++ lit ": " ++ exn_msg e.

Definition _safe_run (cmd : list str) : M world Z :=
  try_except
    (let! proc := run_process cmd in
     let '(rc, out, err) := proc in
     run! (if (rc =? 0)%Z then ret tt else print (uploader_warning rc out err)) in
     ret rc)
    (fun e => run! print (run_error_warning cmd e) in ret 1%Z).

Definition missing_uploader_msg : str :=
  lit "Uploader scripts/upload_event.sh no encontrado".

(** [EventStreamer.__init__]; [strict] is the module's
    [STRICT_MISSING_UPLOADER]. *)
Definition __init__ (strict : bool) (out_dir stream_file : str)
    (snapshot_every : Z) : M world streamer :=
  let self :=
    Streamer out_dir stream_file (Z.max 1 snapshot_every) 0 UPLOADER in
  run! emit (IoMkdir out_dir) in
  let! there := path_exists stream_file in
  run! (if there then ret tt else touch stream_file) in
  let! up := path_exists (uploader self) in
  if up then ret self
  else if strict
       then raise (Exn FileNotFoundError missing_uploader_msg)
       else run! print (lit "ℹ️ " ++ missing_uploader_msg ++
                        lit ". Se continuará sin subir.") in
            ret self.

(** Methods: the object is read with [self] and changed with [set_count]. *)
Definition self : M ctx streamer := gets fst.

Definition io {A} (m : M world A) : M ctx A :=
  fun c =>
    match m (snd c) with
    | (r, w') => (r, (fst c, w'))
    end.

Definition set_count (n : Z) : M ctx unit :=
  modify (fun c =>
    (Streamer (out_dir (fst c)) (stream_file (fst c))
              (snapshot_every (fst c)) n (uploader (fst c)), snd c)).

Definition _upload_stream : M ctx unit :=
  let! s := self in
  let! up := io (path_exists (uploader s)) in
  if negb up then ret tt
  else
    let! day := io _ts_day in
    let remote_name := lit "events_stream_" ++ day ++ lit ".jsonl" in
    run! io (_safe_run [lit "bash"; uploader s; stream_file s; remote_name]) in
    ret tt.

Definition snapshot_name (stamp : str) : str :=
  lit "events_stream_" ++ stamp ++ lit ".jsonl.gz".

Definition _make_snapshot : M ctx str :=
  let! s := self in
  let! stamp := io _ts_full in
  let snap_path := path_join (out_dir s) (snapshot_name stamp) in
  run! io (gzip_open snap_path) in
  let! data := io (file_read (stream_file s)) in
  run! io (gzip_write snap_path data) in
  ret snap_path.


Definition _upload_snapshot (snap_path : str) : M ctx unit :=
  let! s := self in
  let! up := io (path_exists (uploader s)) in
  if negb up then ret tt
  else
    run! io (_safe_run [lit "bash"; uploader s; snap_path; path_name snap_path]) in
    ret tt.

(** [EventStreamer.add].  The optional pause that ends the method
    ([EXTRA_SLEEP_MAX > 0]) comes after everything below and touches neither
    the object nor the files; it is left out. *)
Definition add (event : dict) : M ctx unit :=
  let! s := self in
  run! io (file_append (stream_file s) (line_of event)) in
  run! set_count (count s + 1) in
  run! _upload_stream in
  let! s := self in
  let! r := lift (py_mod (count s) (snapshot_every s)) in
  if (r =? 0)%Z
  then let! snap := _make_snapshot in _upload_snapshot snap
  else ret tt.

(** [EventStreamer.finish]. *)
Definition finish : M ctx unit :=
  try_except
    (let! snap := _make_snapshot in _upload_snapshot snap)
    (fun e =>
       io (print (lit "⚠️  No se pudo generar/subir snapshot final: " ++ exn_msg e))).

(** A run of [add] over the records of a list, as the loop of
    [extract_events] does it: an exception of one [add] is caught by the
    loop, which goes on with the next record. *)
Fixpoint add_all (events : list dict) : M ctx unit :=
  match events with
  | [] => ret tt
  | ev :: rest =>
    run! try_except (add ev) (fun _ => ret tt) in
    add_all rest
  end.

(** The path of the snapshot made when the outside is in [w]. *)
Definition snapshot_path (s : streamer) (w : world) : str :=
  path_join (out_dir s) (snapshot_name (strftime_full (localtime (epoch w)))).

End Streamer.

(** The paths of the module: [OUT_DIR_PATH / "events_stream.jsonl"]. *)
Definition STREAM_FILE (out_dir : str) : str :=
  path_join out_dir (lit "events_stream.jsonl").

(** The snapshots made so far, in order: path and payload. *)
Definition snapshots_of (t : list io_event) : list (str * str) :=
  flat_map (fun e => match e with IoWriteGz p d => [(p, d)] | _ => [] end) t.

(** The child processes started so far. *)
Definition runs_of (t : list io_event) : list (list str) :=
  flat_map (fun e => match e with IoRun c => [c] | _ => [] end) t.

(** The lines printed so far. *)
Definition printed (t : list io_event) : list str :=
  flat_map (fun e => match e with IoPrint l => [l] | _ => [] end) t.


(** The contents of the log of a streamer. *)
Definition log_of (s : streamer) (w : world) : str :=
  default [] (fs w !! stream_file s).

(** The object after one more record. *)
Definition bumped (s : streamer) : streamer :=
  Streamer (out_dir s) (stream_file s) (snapshot_every s) (count s + 1)
           (uploader s).

(** Whether the record that is being added completes a group. *)
Definition due (s : streamer) : bool :=
  ((count s + 1) mod snapshot_every s =? 0)%Z.

(** The log is no snapshot, and the uploader script is neither. *)
Definition well_placed (s : streamer) : Prop :=
  stream_file s <> uploader s /\
  forall stamp,
    path_join (out_dir s) (snapshot_name stamp) <> stream_file s /\
    path_join (out_dir s) (snapshot_name stamp) <> uploader s.


(** The object after [n] more records. *)
Definition advanced (s : streamer) (n : nat) : streamer :=
  Streamer (out_dir s) (stream_file s) (snapshot_every s)
           (count s + Z.of_nat n) (uploader s).

(** What a method that only uploads leaves behind: the files and the
    snapshots are as before, and no child process was started when the
    uploader script is missing. *)
Definition upload_only (s : streamer) (w w' : world) : Prop :=
  fs w' = fs w /\
  snapshots_of (trace w') = snapshots_of (trace w) /\
  (fs w !! uploader s = None -> runs_of (trace w') = runs_of (trace w)).

(** The object [__init__] builds. *)
Definition fresh (out_dir stream_file : str) (k : Z) : streamer :=
  Streamer out_dir stream_file (Z.max 1 k) 0 UPLOADER.

(** The files after [__init__]: the log is there, empty when it was not. *)
Definition fs_init (stream_file : str) (w0 : world) : gmap str str :=
  match fs w0 !! stream_file with
  | Some _ => fs w0
  | None => <[stream_file := []]> (fs w0)
  end.

End Stream.

Export Stream.

(* ===================================================================== *)
(** ** The parsed page *)
(* ===================================================================== *)

Module Soup.

(** A node of the tree BeautifulSoup builds: a tag with its name, the
    list it keeps for the [class] attribute, its other attributes and its
    children, or a text leaf.  Only the text that [get_text] collects is
    kept as a leaf (comments and the contents of scripts are not). *)
#[local] Set Warnings "-register-all".
Inductive node :=
| Tag (name : str) (classes : list str) (attrs : list (str * str))
      (children : list node)
| Text (s : str).
#[local] Set Warnings "register-all".

(** The document object of a parse: a tag of its own above the page. *)
Definition document (children : list node) : node :=
  Tag (lit "[document]") [] [] children.

(** The nodes below a node, in document order. *)
Fixpoint descendants (n : node) : list node :=
  match n with
  | Tag _ _ _ cs => flat_map (fun c => c :: descendants c) cs
  | Text _ => []
  end.

Definition is_tag (name : str) (n : node) : bool :=
  match n with
  | Tag nm _ _ _ => str_eqb nm name
  | Text _ => false
  end.

(** The [class_=want] filter: one of the classes of the tag is [want], or
    the classes joined by a space are [want]. *)
Definition has_class (want : str) (n : node) : bool :=
  match n with
  | Tag _ cls _ _ =>
    existsb (fun c => str_eqb c want) cls || str_eqb (join (lit " ") cls) want
  | Text _ => false
  end.

(** [tag.get(key)]. *)
Definition tag_get (key : str) (n : node) : option str :=
  match n with
  | Tag _ _ attrs _ => dict_get key attrs
  | Text _ => None
  end.

(** [n.find_all(name, class_=cls)]. *)
Definition find_all (name cls : str) (n : node) : list node :=
  List.filter (fun d => is_tag name d && has_class cls d) (descendants n).

(** [n.find(name, class_=cls)]. *)
Definition find (name cls : str) (n : node) : option node :=
  head (find_all name cls n).

(** The [href=lambda x: x and p(x)] filter. *)
Definition href_is (p : str -> bool) (n : node) : bool :=
  match tag_get (lit "href") n with
  | Some h => match h with [] => false | _ :: _ => p h end
  | None => false
  end.

(** [n.find_all(name, href=lambda x: x and p(x))]. *)
Definition find_all_href (name : str) (p : str -> bool) (n : node) : list node :=
  List.filter (fun d => is_tag name d && href_is p d) (descendants n).

Definition find_href (name : str) (p : str -> bool) (n : node) : option node :=
  head (find_all_href name p n).

(** The text leaves below a node, in document order. *)
Fixpoint strings (n : node) : list str :=
  match n with
  | Tag _ _ _ cs => flat_map strings cs
  | Text s => [s]
  end.

(** [n.get_text()]. *)
Definition get_text (n : node) : str := concat (strings n).

(** [n.get_text(strip=True)]: every leaf is stripped, the empty ones are
    dropped, the rest is joined with nothing in between. *)
Definition get_text_strip (n : node) : str :=
  concat (List.filter (fun s => match s with [] => false | _ => true end)
                      (List.map strip (strings n))).

End Soup.

Export Soup.

(* ===================================================================== *)
(** ** Extraction of one event *)
(* ===================================================================== *)

Module Scrape.

Definition BASE : str := lit "https://www.flowagility.com".

(** [re.sub(r"[ \t]+", " ", s)]: [run] tells that the character before was
    a blank already replaced. *)
Fixpoint collapse_blanks (run : bool) (s : str) : str :=
  match s with
  | [] => []
  | c :: t =>
    if chr_eqb c 0x20%N || chr_eqb c 0x09%N
    then (if run then collapse_blanks true t else 0x20%N :: collapse_blanks true t)
    else c :: collapse_blanks false t
  end.

(** The characters [_clean] strips from both ends. *)
Definition CLEAN_CHARS : str :=
  [0x20; 0x09; 0x0D; 0x0A]%N ++ lit "-•*·:;".

(** [ev[key] = v] when the rule found a value. *)
Definition put (key : str) (v : option str) (ev : dict) : dict :=
  match v with
  | Some t => dict_set key (PStr t) ev
  | None => ev
  end.

(** [any(x in t for x in words)]. *)
Definition any_in (words : list str) (t : str) : bool :=
  existsb (fun x => contains x t) words.

Definition and_then {A B} (r : result A) (k : A -> result B) : result B :=
  match r with
  | Ok a => k a
  | Raise e => Raise e
  end.

Definition NAME_CLASS : str :=
  lit "font-caption text-lg text-black truncate -mt-1".
Definition INFO_CLASS : str :=
  lit "relative flex flex-col w-full pt-1 pb-6 mb-4 border-b border-gray-300".
Definition STATUS_CLASS : str :=
  lit "py-1 px-4 border text-white font-bold rounded text-sm".
Definition CLUB_CLASS : str := lit "text-xs mb-0.5 mt-0.5".

(** An anchor that the participants rule takes: its href holds
    [/participants_list] or [/participantes]. *)
Definition participants_anchor (d : node) : bool :=
  is_tag (lit "a") d &&
  href_is (fun h => contains (lit "/participants_list") h ||
                    contains (lit "/participantes") h) d.

Definition has_participants_anchor (c : node) : bool :=
  existsb participants_anchor (descendants c).




(** A container as the listing has it: [<div class="group mb-6" ...>]. *)
Definition container (attrs : list (str * str)) (children : list node) : node :=
  Tag (lit "div") [lit "group"; lit "mb-6"] attrs children.

Section Rules.

(** [unicodedata.normalize("NFKC", s)]. *)
Variable nfkc : str -> str.
(** [urllib.parse.urljoin(base, url)]; it raises [ValueError] on some
    malformed references. *)
Variable urljoin : str -> str -> result str.

(** flow_events.py, [_clean]. *)
Definition _clean (s : str) : str :=
  match s with
  | [] => []
  | _ :: _ => strip_chars CLEAN_CHARS (collapse_blanks false (nfkc s))
  end.

(** *** flow_events.py: the body of the loop of [extract_events] *)

Definition id_rule (c : node) : option str :=
  match tag_get (lit "id") c with
  | Some (x :: r) => Some (replace (lit "event-card-") [] (x :: r))
  | _ => None
  end.

Definition text_of (e : option node) : option str :=
  option_map (fun n => _clean (get_text n)) e.

Definition small_texts (c : node) : list str :=
  List.map (fun d => _clean (get_text d)) (find_all (lit "div") (lit "text-xs") c).

Definition club_rule (c : node) : option str :=
  match find (lit "div") CLUB_CLASS c with
  | Some e => Some (_clean (get_text e))
  | None =>
    List.find (fun t => match t with
                        | [] => false
                        | _ :: _ => negb (any_in [lit "/"; lit "Spain"; lit "España"] t)
                        end)
              (small_texts c)
  end.

Definition lugar_rule (c : node) : option str :=
  List.find (fun t => contains (lit "/") t &&
                      any_in [lit "Spain"; lit "España"; lit "Madrid"; lit "Barcelona"] t)
            (small_texts c).

Definition lugar_fallback (c : node) : option str :=
  List.find (fun t => contains (lit "/") t && (length t <? 100)%nat)
            (small_texts c).

Definition info_href (c : node) : option str :=
  match find_href (lit "a") (contains (lit "/info/")) c with
  | Some a => tag_get (lit "href") a
  | None => None
  end.

(** The href the loop over [participant_links] stops at. *)
Definition participants_href (c : node) : option str :=
  List.find (fun h => contains (lit "/participants_list") h ||
                      contains (lit "/participantes") h)
    (List.map (fun lk => default [] (tag_get (lit "href") lk))
       (find_all_href (lit "a")
          (any_in [lit "/participants"; lit "/participantes"]) c)).

(** [urljoin(BASE, href)] for a link that was found. *)
Definition resolved (href : option str) : result (option str) :=
  match href with
  | Some h => and_then (urljoin BASE h) (fun u => Ok (Some u))
  | None => Ok None
  end.

Definition canonical_participants (id : str) : str :=
  BASE ++ lit "/zone/events/" ++ id ++ lit "/participants_list".

Definition extract_event (c : node) : result dict :=
  let ev := put (lit "id") (id_rule c) [] in
  let ev := put (lit "nombre") (text_of (find (lit "div") NAME_CLASS c)) ev in
  let ev := put (lit "fechas") (text_of (find (lit "div") (lit "text-xs") c)) ev in
  let ev := put (lit "organizacion") (nth_error (small_texts c) 1) ev in
  let ev := put (lit "club") (club_rule c) ev in
  let ev := put (lit "lugar") (lugar_rule c) ev in
  let ev := if has_key (lit "lugar") ev then ev
            else put (lit "lugar") (lugar_fallback c) ev in
  let ev := dict_set (lit "enlaces") (PDict []) ev in
  and_then (resolved (info_href c)) (fun info =>
  let enlaces := put (lit "info") info [] in
  and_then (resolved (participants_href c)) (fun part =>
  let enlaces := put (lit "participantes") part enlaces in
  let enlaces :=
    if negb (has_key (lit "participantes") enlaces)
    then match dict_get (lit "id") ev with
         | Some (PStr id) =>
           dict_set (lit "participantes") (PStr (canonical_participants id)) enlaces
         | _ => enlaces
         end
    else enlaces in
  let ev := dict_set (lit "enlaces") (PDict enlaces) ev in
  let flag := match find (lit "div") (lit "text-md") c with
              | Some f => _clean (get_text f)
              | None => lit "🇪🇸"
              end in
  Ok (dict_set (lit "pais_bandera") (PStr flag) ev))).

(** *** 01EventosPast.py: [extract_event_details] *)

Definition strip_text (e : option node) : option str :=
  option_map get_text_strip e.

Definition href_of (p : str -> bool) (soup : node) : option str :=
  match find_href (lit "a") p soup with
  | Some a => tag_get (lit "href") a
  | None => None
  end.

Definition extract_event_details (soup : node) : result dict :=
  let ev := put (lit "id")
              (option_map (fun c => default [] (tag_get (lit "id") c))
                          (find (lit "div") (lit "group mb-6") soup)) [] in
  let ev :=
    match find (lit "div") INFO_CLASS soup with
    | Some info_div =>
      let date_elems := find_all (lit "div") (lit "text-xs") info_div in
      let ev := put (lit "fechas") (strip_text (nth_error date_elems 0)) ev in
      let ev := put (lit "organizacion") (strip_text (nth_error date_elems 1)) ev in
      let ev := put (lit "nombre")
                  (strip_text (find (lit "div") NAME_CLASS info_div)) ev in
      let ev := put (lit "club")
                  (strip_text (find (lit "div") CLUB_CLASS info_div)) ev in
      put (lit "lugar")
          (List.find (fun t => contains (lit "/") t &&
                               (contains (lit "Spain") t || contains (lit "España") t))
                     (List.map get_text_strip date_elems)) ev
    | None => ev
    end in
  let ev :=
    match find (lit "div") STATUS_CLASS soup with
    | Some status_button =>
      let estado := get_text_strip status_button in
      let ev := dict_set (lit "estado") (PStr estado) ev in
      if contains (lit "Finalizado") estado || contains (lit "Completado") estado
      then dict_set (lit "estado_tipo") (PStr (lit "finalizado")) ev
      else dict_set (lit "estado_tipo") (PStr (lit "desconocido")) ev
    | None =>
      dict_set (lit "estado_tipo") (PStr (lit "finalizado"))
        (dict_set (lit "estado") (PStr (lit "Finalizado")) ev)
    end in
  let ev := dict_set (lit "enlaces") (PDict []) ev in
  and_then (resolved (href_of (contains (lit "/info/")) soup)) (fun info =>
  let enlaces := put (lit "info") info [] in
  and_then (resolved (href_of (contains (lit "/participants_list")) soup)) (fun part =>
  let enlaces := put (lit "participantes") part enlaces in
  and_then (resolved (href_of (contains (lit "/runs")) soup)) (fun runs =>
  let enlaces := put (lit "runs") runs enlaces in
  let ev := dict_set (lit "enlaces") (PDict enlaces) ev in
  let ev := put (lit "pais_bandera")
              (strip_text (find (lit "div") (lit "text-md") soup)) ev in
  Ok (dict_set (lit "tipo") (PStr (lit "pasado")) ev)))).

End Rules.

End Scrape.

Export Scrape.

(* ===================================================================== *)
(** ** 01EventosPast.py: the session and the pages *)
(* ===================================================================== *)

Module Browser.

Inductive By :=
| By_ID | By_NAME | By_CSS_SELECTOR | By_XPATH | By_CLASS_NAME | By_TAG_NAME.

Definition locator : Type := By * str.

(** A [WebElement]: the reference the driver hands out. *)
Definition WebElement := N.

(** The calls made on the driver, in the order they are made. *)
Inductive call :=
| CallGet (url : str)
| CallCurrentUrl
| CallFindElement (l : locator)
| CallIsDisplayed (e : WebElement)
| CallIsEnabled (e : WebElement)
| CallClear (e : WebElement)
| CallSendKeys (e : WebElement) (keys : str)
| CallClick (e : WebElement)
| CallExecuteScript (code : str)
| CallPageSource
| CallSleep (ms : N).

(** The Selenium driver, over the state [B] of the browser and the site.
    Every call may raise.  [page_source] is given parsed, as
    [BeautifulSoup(driver.page_source, 'html.parser')] hands it on;
    [execute_script] gives the number the script returns, if any; [sleep]
    is [time.sleep], during which the site may move on. *)
Record WebDriver (B : Type) := {
  drv_get : str -> M B unit;
  drv_current_url : M B str;
  drv_find_element : locator -> M B WebElement;
  drv_is_displayed : WebElement -> M B bool;
  drv_is_enabled : WebElement -> M B bool;
  drv_clear : WebElement -> M B unit;
  drv_send_keys : WebElement -> str -> M B unit;
  drv_click : WebElement -> M B unit;
  drv_execute_script : str -> M B (option Z);
  drv_page_source : M B node;
  drv_sleep : N -> B -> B }.

Arguments drv_get {B}.
Arguments drv_current_url {B}.
Arguments drv_find_element {B}.
Arguments drv_is_displayed {B}.
Arguments drv_is_enabled {B}.
Arguments drv_clear {B}.
Arguments drv_send_keys {B}.
Arguments drv_click {B}.
Arguments drv_execute_script {B}.
Arguments drv_page_source {B}.
Arguments drv_sleep {B}.

Definition MAX_SCROLLS : nat := 10.
(** [SCROLL_WAIT_S = 1.5], in milliseconds. *)
Definition SCROLL_WAIT_MS : N := 1500.
(** The poll interval of [WebDriverWait], in milliseconds. *)
Definition POLL_MS : N := 500.

Definition quote_mark : str := [0x22%N].


Definition SUBMIT_CSS : str :=
  lit "button[type=" ++ quote_mark ++ lit "submit" ++ quote_mark ++ lit "]".

Section Session.

Context {B : Type}.
Variable driver : WebDriver B.
(** The credentials of the module. *)
Variables FLOW_EMAIL FLOW_PASS : str.
(** [urllib.parse.urljoin], as in the extraction. *)
Variable urljoin : str -> str -> result str.

(** A step of the program: on the browser and the calls made so far. *)
Definition Sel (A : Type) : Type := M (B * list call) A.

Definition called {A} (c : call) (op : M B A) : Sel A :=
  fun s =>
    match op (fst s) with
    | (r, b') => (r, (b', snd s ++ [c]))
    end.

Definition get (url : str) : Sel unit := called (CallGet url) (drv_get driver url).
Definition current_url : Sel str := called CallCurrentUrl (drv_current_url driver).
Definition find_element (l : locator) : Sel WebElement :=
  called (CallFindElement l) (drv_find_element driver l).
Definition is_displayed (e : WebElement) : Sel bool :=
  called (CallIsDisplayed e) (drv_is_displayed driver e).
Definition is_enabled (e : WebElement) : Sel bool :=
  called (CallIsEnabled e) (drv_is_enabled driver e).
Definition clear (e : WebElement) : Sel unit :=
  called (CallClear e) (drv_clear driver e).
Definition send_keys (e : WebElement) (keys : str) : Sel unit :=
  called (CallSendKeys e keys) (drv_send_keys driver e keys).
Definition click (e : WebElement) : Sel unit :=
  called (CallClick e) (drv_click driver e).
Definition execute_script (code : str) : Sel (option Z) :=
  called (CallExecuteScript code) (drv_execute_script driver code).
Definition sleep (ms : N) : Sel unit :=
  called (CallSleep ms) (fun b => (Ok tt, drv_sleep driver ms b)).

(** [slow_pause(min_s, max_s)] sleeps [max(min_s, max_s)]; the argument is
    that maximum, in milliseconds. *)
Definition slow_pause (ms : N) : Sel unit := sleep ms.

(** [WebDriverWait(driver, timeout).until(method)]: [method] is tried, and
    tried again after each of the [polls] pauses the timeout leaves room
    for; a value that is not false is returned, [NoSuchElementException] is
    passed over, any other exception goes through, and [TimeoutException]
    is raised at the end. *)
Fixpoint until_polls {A} (polls : nat) (method : Sel (option A)) : Sel A :=
  fun s =>
    let again s' :=
      match polls with
      | O => (Raise (Exn TimeoutException []), s')
      | S p => bind (sleep POLL_MS) (fun _ => until_polls p method) s'
      end in
    match method s with
    | (Ok (Some v), s') => (Ok v, s')
    | (Ok None, s') => again s'
    | (Raise e, s') =>
      match exn_class_of e with
      | NoSuchElementException => again s'
      | _ => (Raise e, s')
      end
    end.

(** The polls of a timeout given in seconds. *)
Definition until {A} (timeout_s : nat) (method : Sel (option A)) : Sel A :=
  until_polls (2 * timeout_s) method.

(** [EC.presence_of_element_located(l)]. *)
Definition presence_of_element_located (l : locator) : Sel (option WebElement) :=
  let! e := find_element l in ret (Some e).

(** [EC.element_to_be_clickable(l)]. *)
Definition element_to_be_clickable (l : locator) : Sel (option WebElement) :=
  let! e := find_element l in
  let! shown := is_displayed e in
  if shown
  then let! enabled := is_enabled e in
       ret (if enabled then Some e else None)
  else ret None.

Definition LOGIN_PATH : str := lit "/user/login".

Definition _is_login_page : Sel bool :=
  let! url := current_url in ret (contains LOGIN_PATH url).

Definition _login : Sel unit :=
  run! get (BASE ++ LOGIN_PATH) in
  let! email := until 25 (presence_of_element_located (By_NAME, lit "user[email]")) in
  let! pwd := find_element (By_NAME, lit "user[password]") in
  run! clear email in
  run! send_keys email FLOW_EMAIL in
  run! slow_pause 400 in
  run! clear pwd in
  run! send_keys pwd FLOW_PASS in
  run! slow_pause 400 in
  let! submit := find_element (By_CSS_SELECTOR, SUBMIT_CSS) in
  run! click submit in
  run! until 25 (let! url := current_url in
                 ret (if contains LOGIN_PATH url then None else Some true)) in
  slow_pause 1200.

(** The loop of [_ensure_logged_in], for the tries that are left, with the
    login it calls. *)
Fixpoint ensure_tries (login : Sel unit) (tries : nat) : Sel bool :=
  match tries with
  | O => ret false
  | S more =>
    let! at_login := _is_login_page in
    if negb at_login then ret true
    else
      run! login in
      run! slow_pause 1200 in
      let! still := _is_login_page in
      if negb still then ret true
      else ensure_tries login more
  end.

Definition _ensure_logged_in (max_tries : Z) : Sel bool :=
  ensure_tries _login (Z.to_nat max_tries).

(** The loop of [_full_scroll], for the rounds that are left. *)
Fixpoint scroll_rounds (rounds : nat) (last_h : option Z) : Sel unit :=
  match rounds with
  | O => ret tt
  | S more =>
    run! execute_script (lit "window.scrollTo(0, document.body.scrollHeight);") in
    run! sleep SCROLL_WAIT_MS in
    let! h := execute_script (lit "return document.body.scrollHeight;") in
    if bool_decide (h = last_h) then ret tt
    else scroll_rounds more h
  end.

Definition _full_scroll : Sel unit := scroll_rounds MAX_SCROLLS (Some 0%Z).







End Session.


(** What a step adds to the calls made so far satisfies [Q]. *)
Definition adds {B A} (Q : list call -> Prop) (m : M (B * list call) A) : Prop :=
  forall s, exists added, snd (snd (m s)) = snd s ++ added /\ Q added.


(** A site on which the next control is always there and can always be
    clicked, and on which every element looked for is found. *)
Definition always_advances {B} (driver : WebDriver B) : Prop :=
  (forall l b, exists e b', drv_find_element driver l b = (Ok e, b')) /\
  (forall e b, exists b', drv_is_displayed driver e b = (Ok true, b')) /\
  (forall e b, exists b', drv_is_enabled driver e b = (Ok true, b')) /\
  (forall e b, exists b', drv_click driver e b = (Ok tt, b')).

(** A browser that never fails to run a script or to give its page. *)
Definition always_reads {B} (driver : WebDriver B) : Prop :=
  (forall code b, exists v b', drv_execute_script driver code b = (Ok v, b')) /\
  (forall b, exists page b', drv_page_source driver b = (Ok page, b')).


(** The logins started. *)
Definition logins_started (t : list call) : nat :=
  length (List.filter (fun c => match c with CallGet _ => true | _ => false end) t).

(** A page whose height stays [h], in a browser that runs the scroll
    script without failing; and the calls of one round of [_full_scroll]. *)
Definition steady {B} (driver : WebDriver B) (h : Z) : Prop :=
  (forall b, exists v b',
     drv_execute_script driver
       (lit "window.scrollTo(0, document.body.scrollHeight);") b = (Ok v, b')) /\
  (forall b, exists b',
     drv_execute_script driver (lit "return document.body.scrollHeight;") b
       = (Ok (Some h), b')).

Definition round : list call :=
  [CallExecuteScript (lit "window.scrollTo(0, document.body.scrollHeight);");
   CallSleep SCROLL_WAIT_MS;
   CallExecuteScript (lit "return document.body.scrollHeight;")].

End Browser.

Export Browser.

(* ===================================================================== *)
(** ** flow_events.py: the session *)
(* ===================================================================== *)

Module Flow.

(** The selectors [_login] tries, in the order it tries them. *)
Definition email_selectors : list locator :=
  [(By_NAME, lit "user[email]");
   (By_ID, lit "user_email");
   (By_CSS_SELECTOR, lit "input[type='email']");
   (By_XPATH, lit "//input[contains(@name, 'email')]")].

Definition password_selectors : list locator :=
  [(By_NAME, lit "user[password]");
   (By_ID, lit "user_password");
   (By_CSS_SELECTOR, lit "input[type='password']")].

Definition submit_selectors : list locator :=
  [(By_CSS_SELECTOR, SUBMIT_CSS);
   (By_XPATH, lit "//button[contains(text(), 'Sign') or contains(text(), 'Log') or contains(text(), 'Iniciar')]")].

Definition SCROLL_SCRIPT : str :=
  lit "window.scrollTo(0, document.body.scrollHeight);".
Definition HEIGHT_SCRIPT : str := lit "return document.body.scrollHeight".

(** [try: m  except TimeoutException: h]: the other exceptions go through. *)
Definition except_timeout {S A} (m h : M S A) : M S A :=
  fun s =>
    match m s with
    | (Ok a, s') => (Ok a, s')
    | (Raise e, s') =>
      match exn_class_of e with
      | TimeoutException => h s'
      | _ => (Raise e, s')
      end
    end.

Section Session.

Context {B : Type}.
Variable driver : WebDriver B.
(** The credentials, read from the environment; empty when not set. *)
Variables FLOW_EMAIL FLOW_PASS : str.
(** [random.uniform(lo, hi)], in milliseconds: the draw made when [n] calls
    have been made on the driver. *)
Variable uniform : nat -> N -> N -> N.
(** [MAX_SCROLLS] and [SCROLL_WAIT_S] (in milliseconds, not negative), read
    from the environment. *)
Variable MAX_SCROLLS : Z.
Variable SCROLL_WAIT_MS : N.

(** [slow_pause(min_s, max_s)], the bounds in milliseconds. *)
Definition slow_pause (lo hi : N) : Sel (B := B) unit :=
  fun s => sleep driver (uniform (length (snd s)) lo hi) s.

(** [for sel in selectors: try: field = attempt(sel); break
     except Exception: continue], from [field = None]. *)
Fixpoint first_found {A} (attempt : locator -> Sel (B := B) A)
    (selectors : list locator) : Sel (B := B) (option A) :=
  match selectors with
  | [] => ret None
  | sel :: rest =>
    try_except (let! field := attempt sel in ret (Some field))
               (fun _ => first_found attempt rest)
  end.

(** The condition the wait after the click polls; each [d.current_url] is
    a call on the driver. *)
Definition redirected : Sel (B := B) (option bool) :=
  let! url := current_url driver in
  if negb (contains LOGIN_PATH url) then ret (Some true)
  else
    let! url := current_url driver in
    if contains (lit "dashboard") url then ret (Some true)
    else
      let! url := current_url driver in
      ret (if contains (lit "zone") url then Some true else None).

Definition is_empty (s : str) : bool :=
  match s with [] => true | _ :: _ => false end.

(** flow_events.py, [_login], for a driver that is there.  The lines it
    logs are not followed, but for the read of the current URL that the
    last of them makes. *)
Definition _login : Sel (B := B) bool :=
  try_except
    (run! get driver (BASE ++ LOGIN_PATH) in
     run! until driver 45
            (presence_of_element_located driver (By_TAG_NAME, lit "body")) in
     run! slow_pause 2000 4000 in
     let! url := current_url driver in
     if negb (contains LOGIN_PATH url) then ret true
     else
       let! email_field :=
         first_found (fun sel => until driver 10 (element_to_be_clickable driver sel))
                     email_selectors in
       match email_field with
       | None => ret false
       | Some email_field =>
         let! password_field := first_found (find_element driver) password_selectors in
         match password_field with
         | None => ret false
         | Some password_field =>
           let! submit_button := first_found (find_element driver) submit_selectors in
           match submit_button with
           | None => ret false
           | Some submit_button =>
             if is_empty FLOW_EMAIL || is_empty FLOW_PASS then ret false
             else
               run! clear driver email_field in
               run! send_keys driver email_field FLOW_EMAIL in
               run! slow_pause 1000 2000 in
               run! clear driver password_field in
               run! send_keys driver password_field FLOW_PASS in
               run! slow_pause 1000 2000 in
               run! click driver submit_button in
               except_timeout
                 (run! until driver 40 redirected in
                  run! slow_pause 3000 5000 in
                  let! url := current_url driver in
                  if contains LOGIN_PATH url then ret false
                  else
                    run! current_url driver in
                    ret true)
                 (ret false)
           end
         end
       end)
    (fun _ => ret false).

(** The loop of [_full_scroll], for the rounds that are left. *)
Fixpoint scroll_rounds (rounds : nat) (last_h : option Z) : Sel (B := B) unit :=
  match rounds with
  | O => ret tt
  | S more =>
    run! execute_script driver SCROLL_SCRIPT in
    run! sleep driver SCROLL_WAIT_MS in
    let! new_h := execute_script driver HEIGHT_SCRIPT in
    if bool_decide (new_h = last_h) then ret tt
    else scroll_rounds more new_h
  end.

(** flow_events.py, [_full_scroll]. *)
Definition _full_scroll : Sel (B := B) unit :=
  let! last_h := execute_script driver HEIGHT_SCRIPT in
  scroll_rounds (Z.to_nat MAX_SCROLLS) last_h.

End Session.

(** A page whose height stays [h], in a browser that runs the scroll
    script without failing; and the calls of one round of [_full_scroll]. *)
Definition steady_page {B} (driver : WebDriver B) (h : Z) : Prop :=
  (forall b, exists v b',
     drv_execute_script driver SCROLL_SCRIPT b = (Ok v, b')) /\
  (forall b, exists b',
     drv_execute_script driver HEIGHT_SCRIPT b = (Ok (Some h), b')).

Definition scroll_round (SCROLL_WAIT_MS : N) : list call :=
  [CallExecuteScript SCROLL_SCRIPT; CallSleep SCROLL_WAIT_MS;
   CallExecuteScript HEIGHT_SCRIPT].

End Flow.

(* ===================================================================== *)
(** ** flow_events.py: the loop over the containers *)
(* ===================================================================== *)

Module Harvest.



Section Loop.

Variable localtime : nat -> struct_time.
Variable subprocess_run : nat -> list str -> run_outcome.
Variable gzip_compress : str -> str.
Variable nfkc : str -> str.
Variable urljoin : str -> str -> result str.



End Loop.


End Harvest.

(* ===================================================================== *)
(** ** Sample sites and sample library functions *)
(* ===================================================================== *)

Module Sample.

(** Stand-ins for the library functions on the inputs of the examples:
    NFKC leaves ASCII text as it is, and a reference that is an absolute
    path is resolved against an origin without a path by appending it. *)
Definition nfkc_ascii (s : str) : str := s.
Definition urljoin_path (base url : str) : result str := Ok (base ++ url).
Definition gzip_stored (payload : str) : str := lit "gz:" ++ payload.

(** A site that never lets the user in: the login form is there and takes
    what is typed, and the address stays the one that was asked for. *)
Definition stuck_site : WebDriver str := {|
  drv_get := fun url _ => (Ok tt, url);
  drv_current_url := fun b => (Ok b, b);
  drv_find_element := fun _ b => (Ok 1%N, b);
  drv_is_displayed := fun _ b => (Ok true, b);
  drv_is_enabled := fun _ b => (Ok true, b);
  drv_clear := fun _ b => (Ok tt, b);
  drv_send_keys := fun _ _ b => (Ok tt, b);
  drv_click := fun _ b => (Ok tt, b);
  drv_execute_script := fun _ b => (Ok None, b);
  drv_page_source := fun b => (Ok (document []), b);
  drv_sleep := fun _ b => b |}.

(** Credentials for the examples. *)
Definition email : str := lit "user@example.org".
Definition password : str := lit "secret".

(** The address of a session that has expired. *)
Definition expired : str * list call := (BASE ++ lit "/user/login", []).

(** The container of the event of a page. *)
Definition card (page : nat) : node :=
  Tag (lit "div") [lit "group"; lit "mb-6"]
      [(lit "id", lit "event-card-" ++ str_of_N (N.of_nat page))] [].

(** A listing of [pages] pages ([None]: without end), one event on each;
    the state is the number of the page shown.  The next control is there
    on every page but the last. *)
Definition paged_site (pages : option nat) : WebDriver nat := {|
  drv_get := fun _ b => (Ok tt, b);
  drv_current_url := fun b => (Ok (BASE ++ lit "/zone/events/past"), b);
  drv_find_element := fun l b =>
    match fst l with
    | By_XPATH =>
      if match pages with Some n => (b <? n)%nat | None => true end
      then (Ok 7%N, b)
      else (Raise (Exn NoSuchElementException (snd l)), b)
    | _ => (Ok 8%N, b)
    end;
  drv_is_displayed := fun _ b => (Ok true, b);
  drv_is_enabled := fun _ b => (Ok true, b);
  drv_clear := fun _ b => (Ok tt, b);
  drv_send_keys := fun _ _ b => (Ok tt, b);
  drv_click := fun e b => (Ok tt, if (e =? 7)%N then S b else b);
  drv_execute_script := fun _ b => (Ok (Some 1000%Z), b);
  drv_page_source := fun b => (Ok (document [card b]), b);
  drv_sleep := fun _ b => b |}.


Definition failing_upload (n : nat) (cmd : list str) : run_outcome :=
  Completed 3 (lit "out") (lit "err").
(** A clock that stands still. *)
Definition frozen (n : nat) : struct_time := StructTime 2025 9 4 12 0 0.

Definition empty_world : world := World ∅ 0 [].


Definition sample_event : dict := [(lit "id", PStr (lit "abc123"))].



Definition classes_of (s : list string) : list str := List.map lit s.

Definition spring_name : node :=
  Tag (lit "div")
      (classes_of ["font-caption"; "text-lg"; "text-black"; "truncate";
                   "-mt-1"]%string) []
      [Text (lit "  Spring  Trial  ")].

Definition spring_info : node :=
  Tag (lit "div")
      (classes_of ["relative"; "flex"; "flex-col"; "w-full"; "pt-1";
                   "pb-6"; "mb-4"; "border-b"; "border-gray-300"]%string) []
      [spring_name].

Definition spring_status : node :=
  Tag (lit "div")
      (classes_of ["py-1"; "px-4"; "border"; "text-white"; "font-bold";
                   "rounded"; "text-sm"]%string) []
      [Text (lit "Finalizado")].

Definition spring_attrs : list (str * str) :=
  [(lit "id", lit "event-card-abc123")].

Definition spring_card : node :=
  container spring_attrs [spring_info; spring_status].


(** A container as the listing shows it: dates, organiser, name, place
    and club in the info block, a status badge, a flag and the three
    links. *)
Definition small (t : string) : node :=
  Tag (lit "div") [lit "text-xs"] [] [Text (lit t)].

Definition link (href : string) : node :=
  Tag (lit "a") [] [(lit "href", lit href)] [].

Definition listed_info : node :=
  Tag (lit "div")
      (classes_of ["relative"; "flex"; "flex-col"; "w-full"; "pt-1";
                   "pb-6"; "mb-4"; "border-b"; "border-gray-300"]%string) []
      [small " 12 - 14 Sep "; small "RSCE"; spring_name;
       Tag (lit "div") (classes_of ["text-xs"; "mb-0.5"; "mt-0.5"]%string) []
           [Text (lit "Club Agility Norte")];
       small "Madrid / Spain"].

Definition listed_card : node :=
  container [(lit "id", lit "event-card-xyz789")]
    [listed_info; spring_status;
     Tag (lit "div") [lit "text-md"] [] [Text (lit "ES")];
     link "/zone/events/xyz789/info/";
     link "/zone/events/xyz789/participants_list";
     link "/zone/events/xyz789/runs"].

(** A container without info block: its small texts stand alone. *)
Definition loose_card : node :=
  container [(lit "id", lit "event-card-loose")]
    [small "1 Oct"; small "Club Sur"; small "Sevilla / Andalucia"].

(** Random pauses that always take the least time. *)
Definition shortest (n : nat) (lo hi : N) : N := lo.


(** A site that shows its login page whatever is done. *)
Definition locked_site : WebDriver unit := {|
  drv_get := fun _ b => (Ok tt, b);
  drv_current_url := fun b => (Ok (BASE ++ lit "/user/login"), b);
  drv_find_element := fun _ b => (Ok 1%N, b);
  drv_is_displayed := fun _ b => (Ok true, b);
  drv_is_enabled := fun _ b => (Ok true, b);
  drv_clear := fun _ b => (Ok tt, b);
  drv_send_keys := fun _ _ b => (Ok tt, b);
  drv_click := fun _ b => (Ok tt, b);
  drv_execute_script := fun _ b => (Ok (Some 1000%Z), b);
  drv_page_source := fun b => (Ok (document []), b);
  drv_sleep := fun _ b => b |}.

End Sample.

Module JsonFacts.






End JsonFacts.

Module StreamFacts.

Lemma snapshots_of_app t1 t2 :
  snapshots_of (t1 ++ t2) = snapshots_of t1 ++ snapshots_of t2.
Proof. unfold snapshots_of. apply flat_map_app. Qed.

Lemma runs_of_app t1 t2 : runs_of (t1 ++ t2) = runs_of t1 ++ runs_of t2.
Proof. unfold runs_of. apply flat_map_app. Qed.

Lemma printed_app t1 t2 : printed (t1 ++ t2) = printed t1 ++ printed t2.
Proof. unfold printed. apply flat_map_app. Qed.

(** *** Arithmetic of the cadence *)

Lemma div_succ_due (c k : Z) :
  (0 < k)%Z -> ((c + 1) mod k = 0)%Z -> ((c + 1) / k = c / k + 1)%Z.
Proof.
  intros Hk Hm.
  pose proof (Z.div_mod (c + 1) k ltac:(lia)) as E. rewrite Hm in E.
  assert (((c + 1) / k - 1 = c / k)%Z) as H
    by (apply (Z.div_unique c k ((c + 1) / k - 1) (k - 1)); lia).
  lia.
Qed.

Lemma div_succ_not_due (c k : Z) :
  (0 < k)%Z -> ((c + 1) mod k <> 0)%Z -> ((c + 1) / k = c / k)%Z.
Proof.
  intros Hk Hm.
  pose proof (Z.div_mod (c + 1) k ltac:(lia)) as E.
  pose proof (Z.mod_pos_bound (c + 1) k Hk) as B.
  apply (Z.div_unique c k ((c + 1) / k) ((c + 1) mod k - 1)); lia.
Qed.

Section Facts.

Variable localtime : nat -> struct_time.
Variable subprocess_run : nat -> list str -> run_outcome.
Variable gzip_compress : str -> str.

Abbreviation _safe_run := (_safe_run subprocess_run).
Abbreviation _upload_stream := (_upload_stream localtime subprocess_run).
Abbreviation _upload_snapshot := (_upload_snapshot subprocess_run).
Abbreviation _make_snapshot := (_make_snapshot localtime gzip_compress).
Abbreviation add := (add localtime subprocess_run gzip_compress).
Abbreviation add_all := (add_all localtime subprocess_run gzip_compress).
Abbreviation finish := (finish localtime subprocess_run gzip_compress).

(** [_safe_run] returns a status whatever the child process does; it only
    starts the process and prints. *)
Lemma safe_run_total cmd w :
  exists rc w', _safe_run cmd w = (Ok rc, w') /\
    fs w' = fs w /\ epoch w' = S (epoch w) /\
    exists lines, trace w' = trace w ++ IoRun cmd :: List.map IoPrint lines.
Proof.
  unfold Stream._safe_run, try_except, bind, run_process.
  destruct (subprocess_run (epoch w) cmd) as [rc out err | e]; cbn.
  - destruct (rc =? 0)%Z; cbn.
    + exists rc. eexists. split; [reflexivity|]. cbn. repeat split.
      exists []. reflexivity.
    + exists rc. eexists. split; [reflexivity|]. cbn. repeat split.
      exists [uploader_warning rc out err]. rewrite <- app_assoc. reflexivity.
  - exists 1%Z. eexists. split; [reflexivity|]. cbn. repeat split.
    exists [run_error_warning cmd e]. rewrite <- app_assoc. reflexivity.
Qed.

Lemma snapshots_of_quiet t c lines :
  snapshots_of (t ++ IoRun c :: List.map IoPrint lines) = snapshots_of t.
Proof.
  rewrite snapshots_of_app. cbn [snapshots_of flat_map app].
  replace (flat_map _ (List.map IoPrint lines)) with (@nil (str * str)).
  - apply app_nil_r.
  - induction lines; cbn; auto.
Qed.

Lemma upload_stream_spec s w :
  exists w', _upload_stream (s, w) = (Ok tt, (s, w')) /\ upload_only s w w'.
Proof.
  unfold Stream._upload_stream, bind, self, gets, io, path_exists. cbn.
  destruct (fs w !! uploader s) as [u|] eqn:Hu; cbn.
  - destruct (safe_run_total
                [lit "bash"; uploader s; stream_file s;
                 lit "events_stream_" ++ strftime_day (localtime (epoch w)) ++ lit ".jsonl"]
                (World (fs w) (S (epoch w)) (trace w)))
      as (rc & w' & E & Hfs & _ & lines & Ht).
    rewrite E. cbn. exists w'. split; [reflexivity|].
    unfold upload_only. rewrite Hfs, Ht. cbn [fs trace].
    split; [reflexivity|]. split; [apply snapshots_of_quiet|congruence].
  - exists w. destruct w; cbn. repeat split.
Qed.

Lemma upload_snapshot_spec s w p :
  exists w', _upload_snapshot p (s, w) = (Ok tt, (s, w')) /\ upload_only s w w'.
Proof.
  unfold Stream._upload_snapshot, bind, self, gets, io, path_exists. cbn.
  destruct (fs w !! uploader s) as [u|] eqn:Hu; cbn.
  - destruct (safe_run_total [lit "bash"; uploader s; p; path_name p] w)
      as (rc & w' & E & Hfs & _ & lines & Ht).
    rewrite E. cbn. exists w'. split; [reflexivity|].
    unfold upload_only. rewrite Hfs, Ht.
    split; [reflexivity|]. split; [apply snapshots_of_quiet|congruence].
  - exists w. destruct w; cbn. repeat split.
Qed.

(** [_make_snapshot] on a log that exists: one gzip file is written, with
    the log as it stands (when the log is not itself that file). *)
Lemma make_snapshot_spec s w data :
  fs w !! stream_file s = Some data ->
  exists w' payload,
    _make_snapshot (s, w) = (Ok (snapshot_path localtime s w), (s, w')) /\
    fs w' = <[snapshot_path localtime s w := gzip_compress payload]> (fs w) /\
    trace w' = trace w ++ [IoWriteGz (snapshot_path localtime s w) payload] /\
    (stream_file s <> snapshot_path localtime s w -> payload = data).
Proof.
  intros Hlog.
  unfold Stream._make_snapshot, bind, self, gets, io, _ts_full, clock,
    gzip_open, gzip_write, file_read, modify, ret. cbn.
  fold (snapshot_path localtime s w).
  destruct (decide (stream_file s = snapshot_path localtime s w)) as [Heq|Hne].
  - rewrite <- Heq. rewrite lookup_insert_eq. cbn.
    eexists _, _. split; [reflexivity|]. cbn.
    rewrite insert_insert_eq. repeat split. congruence.
  - rewrite lookup_insert_ne by congruence. rewrite Hlog. cbn.
    eexists _, _. split; [reflexivity|]. cbn.
    rewrite insert_insert_eq. repeat split.
Qed.

Lemma well_placed_snapshot s w :
  well_placed s ->
  snapshot_path localtime s w <> stream_file s /\ snapshot_path localtime s w <> uploader s.
Proof. intros (_ & H). apply H. Qed.

Lemma add_spec s w ev :
  snapshot_every s <> 0%Z ->
  exists w',
    add ev (s, w) = (Ok tt, (bumped s, w')) /\
    (exists new, snapshots_of (trace w') = snapshots_of (trace w) ++ new /\
                 length new = (if due s then 1 else 0) /\
                 (well_placed s ->
                    Forall (fun x => snd x = log_of s w ++ line_of ev) new)) /\
    is_Some (fs w' !! stream_file s) /\
    (well_placed s ->
       fs w' !! stream_file s = Some (log_of s w ++ line_of ev) /\
       (fs w !! uploader s = None ->
          fs w' !! uploader s = None /\
          runs_of (trace w') = runs_of (trace w))).
Proof.
  intros Hse.
  unfold Stream.add, bind at 1. unfold self at 1, gets. cbn [fst snd].
  unfold bind at 1. unfold io at 1, file_append, modify. cbn [fst snd].
  unfold bind at 1. unfold set_count at 1, modify. cbn [fst snd].
  fold (bumped s). fold (line_of ev).
  set (w1 := World (<[stream_file s := default [] (fs w !! stream_file s) ++ line_of ev]> (fs w))
                   (epoch w) (trace w ++ [IoAppend (stream_file s) (line_of ev)])).
  unfold bind at 1.
  destruct (upload_stream_spec (bumped s) w1) as (w2 & E2 & Hfs2 & Hsn2 & Hrun2).
  rewrite E2.
  unfold bind at 1. unfold self at 1, gets. cbn [fst snd].
  unfold bind at 1. unfold lift, py_mod. cbn [snapshot_every bumped count].
  destruct (snapshot_every s =? 0)%Z eqn:Hz; [apply Z.eqb_eq in Hz; contradiction|].
  unfold due.
  assert (Hlog2 : fs w2 !! stream_file s = Some (log_of s w ++ line_of ev)).
  { rewrite Hfs2. subst w1. cbn. rewrite lookup_insert_eq. reflexivity. }
  assert (Hsn1 : snapshots_of (trace w1) = snapshots_of (trace w)).
  { subst w1. cbn. rewrite snapshots_of_app. cbn. apply app_nil_r. }
  assert (Hrun1 : runs_of (trace w1) = runs_of (trace w)).
  { subst w1. cbn. rewrite runs_of_app. cbn. apply app_nil_r. }
  destruct ((count s + 1) mod snapshot_every s =? 0)%Z eqn:Hdue.
  - destruct (make_snapshot_spec (bumped s) w2 _ Hlog2)
      as (w3 & payload & E3 & Hfs3 & Ht3 & Hpay).
    unfold bind at 1. rewrite E3.
    destruct (upload_snapshot_spec (bumped s) w3 (snapshot_path localtime (bumped s) w2))
      as (w4 & E4 & Hfs4 & Hsn4 & Hrun4).
    rewrite E4. exists w4. split; [reflexivity|]. split; [|split].
    + exists [(snapshot_path localtime (bumped s) w2, payload)]. split; [|split].
      * rewrite Hsn4, Ht3, snapshots_of_app, Hsn2, Hsn1. reflexivity.
      * reflexivity.
      * intros Hwp. constructor; [|constructor]. cbn.
        apply Hpay. intros Heq.
        apply (proj1 (well_placed_snapshot (bumped s) w2 Hwp)).
        symmetry. exact Heq.
    + rewrite Hfs4, Hfs3. change (stream_file (bumped s)) with (stream_file s).
      destruct (decide (snapshot_path localtime (bumped s) w2 = stream_file s)) as [Heq|Hne].
      * rewrite Heq, lookup_insert_eq. eauto.
      * rewrite lookup_insert_ne by exact Hne. eexists. exact Hlog2.
    + intros Hwp.
      destruct (well_placed_snapshot (bumped s) w2 Hwp) as (Hsp1 & Hsp2).
      destruct Hwp as (Hsu & Hsnap). split.
      * rewrite Hfs4, Hfs3.
        rewrite lookup_insert_ne by exact Hsp1. exact Hlog2.
      * intros Hnone.
        assert (H1 : fs w1 !! uploader s = None).
        { subst w1. cbn. rewrite lookup_insert_ne by exact Hsu. exact Hnone. }
        assert (H3 : fs w3 !! uploader s = None).
        { rewrite Hfs3. rewrite lookup_insert_ne by exact Hsp2.
          rewrite Hfs2. exact H1. }
        split.
        -- rewrite Hfs4. exact H3.
        -- rewrite (Hrun4 H3), Ht3, runs_of_app. cbn. rewrite app_nil_r.
           rewrite (Hrun2 H1). exact Hrun1.
  - exists w2. split; [reflexivity|]. split; [|split].
    + exists []. rewrite app_nil_r, Hsn2, Hsn1. repeat split. constructor.
    + eexists. exact Hlog2.
    + intros (Hsu & Hsnap). split; [exact Hlog2|].
      intros Hnone.
      assert (H1 : fs w1 !! uploader s = None).
      { subst w1. cbn. rewrite lookup_insert_ne by exact Hsu. exact Hnone. }
      split; [rewrite Hfs2; exact H1|]. rewrite (Hrun2 H1). exact Hrun1.
Qed.

Lemma advanced_0 s : advanced s 0 = s.
Proof. destruct s. unfold advanced. cbn. f_equal. lia. Qed.

Lemma advanced_S s n : advanced (bumped s) n = advanced s (S n).
Proof. unfold advanced, bumped. cbn. f_equal. lia. Qed.

Lemma well_placed_bumped s : well_placed s -> well_placed (bumped s).
Proof. intros H. exact H. Qed.

Lemma add_all_spec events : forall s w,
  (0 < snapshot_every s)%Z ->
  exists w',
    add_all events (s, w) = (Ok tt, (advanced s (length events), w')) /\
    (exists new, snapshots_of (trace w') = snapshots_of (trace w) ++ new /\
       Z.of_nat (length new) =
         ((count s + Z.of_nat (length events)) / snapshot_every s
          - count s / snapshot_every s)%Z) /\
    (is_Some (fs w !! stream_file s) -> is_Some (fs w' !! stream_file s)) /\
    (well_placed s ->
       log_of s w' = log_of s w ++ concat (List.map line_of events) /\
       (fs w !! uploader s = None ->
          fs w' !! uploader s = None /\
          runs_of (trace w') = runs_of (trace w))).
Proof.
  induction events as [|ev rest IH]; intros s w Hk.
  - exists w. cbn. rewrite advanced_0. split; [reflexivity|]. split; [|split].
    + exists []. rewrite app_nil_r. split; [reflexivity|].
      cbn. rewrite Z.add_0_r. lia.
    + auto.
    + intros _. rewrite app_nil_r. split; [reflexivity|]. auto.
  - destruct (add_spec s w ev ltac:(lia))
      as (w1 & E1 & (new1 & Hs1 & Hl1 & _) & Hsome1 & Hwp1).
    destruct (IH (bumped s) w1 Hk)
      as (w2 & E2 & (new2 & Hs2 & Hl2) & Hsome2 & Hwp2).
    exists w2. split; [|split; [|split]].
    + cbn [Stream.add_all]. unfold bind at 1, try_except. rewrite E1.
      rewrite E2. rewrite advanced_S. reflexivity.
    + exists (new1 ++ new2). split.
      * rewrite Hs2, Hs1, app_assoc. reflexivity.
      * rewrite length_app, Nat2Z.inj_add, Hl2, Hl1.
        cbn [bumped count snapshot_every length].
        replace (count s + 1 + Z.of_nat (length rest))%Z
          with (count s + Z.of_nat (S (length rest)))%Z by lia.
        unfold due. destruct ((count s + 1) mod snapshot_every s =? 0)%Z eqn:Hd.
        -- apply Z.eqb_eq in Hd. rewrite (div_succ_due _ _ Hk Hd). cbn. lia.
        -- apply Z.eqb_neq in Hd. rewrite (div_succ_not_due _ _ Hk Hd). cbn. lia.
    + intros _. apply Hsome2. exact Hsome1.
    + intros Hwp. destruct (Hwp1 Hwp) as (Hlog1 & Hup1).
      destruct (Hwp2 Hwp) as (Hlog2 & Hup2). cbn [bumped stream_file uploader] in *.
      split.
      * change (log_of (bumped s) w2) with (log_of s w2) in Hlog2.
        rewrite Hlog2. change (log_of (bumped s) w1) with (log_of s w1).
        unfold log_of at 1. rewrite Hlog1. cbn [from_option List.map concat].
        unfold id. rewrite <- app_assoc. reflexivity.
      * intros Hnone. destruct (Hup1 Hnone) as (Hn1 & Hr1).
        destruct (Hup2 Hn1) as (Hn2 & Hr2). split; [exact Hn2|].
        rewrite Hr2. exact Hr1.
Qed.


Lemma init_spec strict out_dir stream_file k w0 :
  exists w,
    Stream.__init__ strict out_dir stream_file k w0 =
      ((match fs_init stream_file w0 !! UPLOADER with
        | Some _ => Ok (fresh out_dir stream_file k)
        | None => if strict
                  then Raise (Exn FileNotFoundError missing_uploader_msg)
                  else Ok (fresh out_dir stream_file k)
        end), w) /\
    fs w = fs_init stream_file w0 /\
    snapshots_of (trace w) = snapshots_of (trace w0) /\
    runs_of (trace w) = runs_of (trace w0).
Proof.
  unfold Stream.__init__, bind, emit, modify, path_exists, gets, touch, fs_init.
  cbn. fold (fresh out_dir stream_file k).
  destruct (fs w0 !! stream_file) as [d|] eqn:Hs; cbn.
  - destruct (fs w0 !! UPLOADER) as [u|] eqn:Hu; cbn.
    + eexists. split; [reflexivity|]. cbn.
      rewrite snapshots_of_app, runs_of_app. cbn. rewrite !app_nil_r. auto.
    + destruct strict; cbn; eexists; (split; [reflexivity|]); cbn;
        rewrite ?snapshots_of_app, ?runs_of_app; cbn; rewrite ?app_nil_r; auto.
  - rewrite Hs. cbn.
    destruct (<[stream_file:=[]]> (fs w0) !! UPLOADER) as [u|] eqn:Hu; cbn.
    + eexists. split; [reflexivity|]. cbn.
      rewrite !snapshots_of_app, !runs_of_app. cbn. rewrite !app_nil_r. auto.
    + destruct strict; cbn; eexists; (split; [reflexivity|]); cbn;
        rewrite ?snapshots_of_app, ?runs_of_app; cbn; rewrite ?app_nil_r; auto.
Qed.

Lemma fs_init_log stream_file w0 :
  fs_init stream_file w0 !! stream_file =
    Some (default [] (fs w0 !! stream_file)).
Proof.
  unfold fs_init. destruct (fs w0 !! stream_file) as [d|] eqn:E.
  - rewrite E. reflexivity.
  - rewrite lookup_insert_eq. reflexivity.
Qed.


(** What is known of a streamer that [__init__] returned. *)
Lemma init_ok strict out_dir stream_file k w0 s w :
  Stream.__init__ strict out_dir stream_file k w0 = (Ok s, w) ->
  s = fresh out_dir stream_file k /\
  fs w = fs_init stream_file w0 /\
  snapshots_of (trace w) = snapshots_of (trace w0) /\
  runs_of (trace w) = runs_of (trace w0).
Proof.
  intros E. destruct (init_spec strict out_dir stream_file k w0)
    as (w' & E' & Hfs & Hsn & Hr).
  rewrite E in E'. injection E' as Hres <-.
  repeat split; try assumption.
  destruct (fs_init stream_file w0 !! UPLOADER); [congruence|].
  destruct strict; congruence.
Qed.

(** The paths of the module are well placed, whatever the directory. *)
Lemma last_snoc_str (a : str) (c : N) : last (a ++ [c]) = Some c.
Proof. rewrite last_app. reflexivity. Qed.

Lemma well_placed_default out_dir k :
  well_placed (fresh out_dir (STREAM_FILE out_dir) k).
Proof.
  assert (Hs : last (STREAM_FILE out_dir) = Some 108%N).
  { unfold STREAM_FILE, path_join.
    change (lit "events_stream.jsonl") with (lit "events_stream.json" ++ [108%N]).
    rewrite !app_assoc. apply last_snoc_str. }
  assert (Hz : forall stamp,
             last (path_join out_dir (snapshot_name stamp)) = Some 122%N).
  { intros stamp. unfold path_join, snapshot_name.
    change (lit ".jsonl.gz") with (lit ".jsonl.g" ++ [122%N]).
    rewrite !app_assoc. apply last_snoc_str. }
  assert (Hu : last UPLOADER = Some 104%N) by reflexivity.
  unfold well_placed, fresh. cbn [stream_file uploader Stream.out_dir]. split.
  - intros E. rewrite E in Hs. congruence.
  - intros stamp. split.
    + intros E. specialize (Hz stamp). rewrite E in Hz. congruence.
    + intros E. specialize (Hz stamp). rewrite E in Hz. congruence.
Qed.

End Facts.
End StreamFacts.

(* ===================================================================== *)
(** ** The streamer: cadence, log, publishing *)
(* ===================================================================== *)

Import JsonFacts StreamFacts.

















(* ===================================================================== *)
(** ** Extraction: what a record holds *)
(* ===================================================================== *)

Module ExtractFacts.

Lemma chr_eqb_refl c : chr_eqb c c = true.
Proof. apply N.eqb_refl. Qed.

Lemma str_eqb_refl s : str_eqb s s = true.
Proof.
  induction s as [|c t IH]; cbn; [reflexivity|].
  rewrite chr_eqb_refl. exact IH.
Qed.

Lemma str_eqb_eq a : forall b, str_eqb a b = true -> a = b.
Proof.
  induction a as [|x a IH]; intros [|y b] H; cbn in H; try discriminate; auto.
  apply andb_true_iff in H as (H1 & H2). apply N.eqb_eq in H1.
  rewrite (IH _ H2), H1. reflexivity.
Qed.

(** *** Dictionaries: what is set is read back, other keys are kept *)

Lemma dict_get_set_same {V} k (v : V) d : dict_get k (dict_set k v d) = Some v.
Proof.
  induction d as [|[k' v'] rest IH]; cbn.
  - rewrite str_eqb_refl. reflexivity.
  - destruct (str_eqb k k') eqn:E; cbn.
    + rewrite str_eqb_refl. reflexivity.
    + rewrite E. exact IH.
Qed.

Lemma dict_get_set_other {V} k k' (v : V) d :
  str_eqb k k' = false -> dict_get k (dict_set k' v d) = dict_get k d.
Proof.
  intros Hne. induction d as [|[k2 v2] rest IH]; cbn.
  - rewrite Hne. reflexivity.
  - destruct (str_eqb k' k2) eqn:E; cbn.
    + apply str_eqb_eq in E. subst k2. rewrite Hne. reflexivity.
    + destruct (str_eqb k k2); [reflexivity|exact IH].
Qed.

Lemma has_key_get {V} k (d : list (str * V)) :
  has_key k d = match dict_get k d with Some _ => true | None => false end.
Proof.
  induction d as [|[k' v'] rest IH]; cbn; [reflexivity|].
  destruct (str_eqb k k'); cbn; [reflexivity|exact IH].
Qed.

Lemma dict_get_put_other k k' v ev :
  str_eqb k k' = false -> dict_get k (put k' v ev) = dict_get k ev.
Proof.
  intros Hne. destruct v as [t|]; cbn; [|reflexivity].
  apply dict_get_set_other. exact Hne.
Qed.

Lemma dict_get_put_same k v ev :
  dict_get k (put k v ev) =
    match v with Some t => Some (PStr t) | None => dict_get k ev end.
Proof. destruct v as [t|]; cbn; [apply dict_get_set_same|reflexivity]. Qed.

(** *** Searches that find nothing *)


Lemma existsb_false_Forall {A} (f : A -> bool) l :
  existsb f l = false -> Forall (fun x => f x = false) l.
Proof.
  induction l as [|x l IH]; cbn; intros H; constructor.
  - apply orb_false_iff in H. tauto.
  - apply IH. apply orb_false_iff in H. tauto.
Qed.

End ExtractFacts.

Import ExtractFacts.

Lemma find_map_filter_none {A B} (p : B -> bool) (f : A -> B) (g : A -> bool) l :
  Forall (fun d => g d = true -> p (f d) = false) l ->
  List.find p (List.map f (List.filter g l)) = None.
Proof.
  induction 1 as [|d l Hd _ IH]; cbn; [reflexivity|].
  destruct (g d) eqn:Hg; cbn; [|exact IH].
  rewrite (Hd eq_refl). exact IH.
Qed.

(** Without an anchor of the participants rule, the loop over the
    participant links stops nowhere. *)
Lemma participants_href_none c :
  has_participants_anchor c = false -> participants_href c = None.
Proof.
  intros H. unfold participants_href, find_all_href.
  apply find_map_filter_none.
  apply existsb_false_Forall in H.
  eapply Forall_impl; [exact H|]. cbn beta.
  intros d Hd Hg. unfold participants_anchor in Hd.
  apply andb_true_iff in Hg as (Ha & Hq). rewrite Ha in Hd. cbn [andb] in Hd.
  unfold href_is in *. destruct (tag_get (lit "href") d) as [[|x r]|];
    try discriminate. exact Hd.
Qed.

(** The id of a record is the one the id rule found: no later rule
    touches it. *)
Lemma extract_event_id nfkc urljoin c ev :
  extract_event nfkc urljoin c = Ok ev ->
  dict_get (lit "id") ev = option_map PStr (id_rule c).
Proof.
  unfold extract_event.
  match goal with
  | |- and_then _ (fun info => and_then _ (fun part => Ok (dict_set _ _ (dict_set _ _ ?e)))) = _ -> _ =>
    set (ev0 := e)
  end.
  assert (H0 : dict_get (lit "id") ev0 = option_map PStr (id_rule c)).
  { subst ev0. rewrite dict_get_set_other by reflexivity.
    match goal with |- dict_get _ (if ?b then _ else _) = _ => destruct b end;
      rewrite ?dict_get_put_other by reflexivity;
      rewrite dict_get_put_same; destruct (id_rule c); reflexivity. }
  destruct (resolved urljoin (info_href c)) as [info|e]; [|discriminate].
  destruct (resolved urljoin (participants_href c)) as [part|e]; [|discriminate].
  cbn [and_then]. intros E. injection E as <-.
  rewrite !dict_get_set_other by reflexivity. exact H0.
Qed.

(** C5.  The participants link is synthesised.  For every container whose
    id attribute is not empty and below which no anchor has an href with
    [/participants_list] or [/participantes], the record of
    [extract_events] has, under [enlaces], the key [participantes] with
    the base origin, [/zone/events/], the id without its [event-card-]
    prefix, and [/participants_list].  The extraction gives no record only
    when [urljoin] raises on the info link. *)
Theorem participants_link_synthesized
    (nfkc : str -> str) (urljoin : str -> str -> result str)
    (c : node) (i : str) :
  tag_get (lit "id") c = Some i ->
  i <> [] ->
  has_participants_anchor c = false ->
  match extract_event nfkc urljoin c with
  | Ok ev =>
    exists enlaces,
      dict_get (lit "id") ev = Some (PStr (replace (lit "event-card-") [] i)) /\
      dict_get (lit "enlaces") ev = Some (PDict enlaces) /\
      dict_get (lit "participantes") enlaces =
        Some (PStr (BASE ++ lit "/zone/events/"
                    ++ replace (lit "event-card-") [] i
                    ++ lit "/participants_list"))
  | Raise e => resolved urljoin (info_href c) = Raise e
  end.
Proof.
  intros Hid Hne Hnone.
  assert (Hrule : id_rule c = Some (replace (lit "event-card-") [] i)).
  { unfold id_rule. rewrite Hid. destruct i; [contradiction|reflexivity]. }
  destruct (extract_event nfkc urljoin c) as [ev|e] eqn:E.
  - pose proof (extract_event_id _ _ _ _ E) as Hev. rewrite Hrule in Hev.
    cbn [option_map] in Hev.
    revert E. unfold extract_event.
    match goal with
    | |- and_then _ (fun info => and_then _ (fun part => Ok (dict_set _ _ (dict_set _ _ ?e)))) = _ -> _ =>
      set (ev0 := e)
    end.
    assert (H0 : dict_get (lit "id") ev0 = Some (PStr (replace (lit "event-card-") [] i))).
    { subst ev0. rewrite dict_get_set_other by reflexivity.
      match goal with |- dict_get _ (if ?b then _ else _) = _ => destruct b end;
        rewrite ?dict_get_put_other by reflexivity;
        rewrite dict_get_put_same, Hrule; reflexivity. }
    rewrite (participants_href_none c Hnone).
    destruct (resolved urljoin (info_href c)) as [info|e]; [|discriminate].
    cbn [and_then resolved put]. rewrite H0.
    assert (Hk : has_key (lit "participantes") (put (lit "info") info []) = false)
      by (destruct info; reflexivity).
    rewrite Hk. cbn [negb]. intros E. injection E as <-.
    eexists. split; [exact Hev|]. split.
    + rewrite dict_get_set_other by reflexivity. apply dict_get_set_same.
    + apply dict_get_set_same.
  - revert E. unfold extract_event.
    destruct (resolved urljoin (info_href c)) as [info|e']; cbn [and_then].
    + rewrite (participants_href_none c Hnone). cbn [and_then resolved].
      discriminate.
    + intros E. injection E as <-. reflexivity.
Qed.

(** The container of the scenario has no participants anchor: its link is
    built from the id [abc123]. *)
Lemma participants_link_synthesized_witness :
  match extract_event Sample.nfkc_ascii Sample.urljoin_path Sample.spring_card with
  | Ok ev =>
    exists enlaces,
      dict_get (lit "id") ev
        = Some (PStr (replace (lit "event-card-") [] (lit "event-card-abc123"))) /\
      dict_get (lit "enlaces") ev = Some (PDict enlaces) /\
      dict_get (lit "participantes") enlaces =
        Some (PStr (BASE ++ lit "/zone/events/"
                    ++ replace (lit "event-card-") [] (lit "event-card-abc123")
                    ++ lit "/participants_list"))
  | Raise e => resolved Sample.urljoin_path (info_href Sample.spring_card) = Raise e
  end.
Proof.
  apply (participants_link_synthesized Sample.nfkc_ascii Sample.urljoin_path
           Sample.spring_card (lit "event-card-abc123")).
  - reflexivity.
  - discriminate.
  - reflexivity.
Defined.

(** *** Containers without recognised nodes *)





Lemma any_in_first a t rest : contains a t = true -> any_in (a :: rest) t = true.
Proof. intros H. unfold any_in. cbn. rewrite H. reflexivity. Qed.

Lemma any_in_later a t rest : any_in rest t = true -> any_in (a :: rest) t = true.
Proof. intros H. unfold any_in in *. cbn. rewrite H. apply orb_true_r. Qed.




Lemma startswith_app a b t : startswith (a ++ b) t = true -> startswith a t = true.
Proof.
  revert t. induction a as [|x a IH]; intros t H; [destruct t; reflexivity|].
  destruct t as [|y t]; cbn in *; [discriminate|].
  apply andb_true_iff in H as (H1 & H2). rewrite H1. cbn. apply IH. exact H2.
Qed.

(** A text that holds [a ++ b] holds [a]. *)
Lemma contains_app a b t : contains (a ++ b) t = true -> contains a t = true.
Proof.
  induction t as [|y t IH]; cbn; intros H.
  - rewrite orb_false_r in *. apply (startswith_app a b). exact H.
  - apply orb_true_iff in H as [H|H].
    + rewrite (startswith_app a b _ H). reflexivity.
    + rewrite (IH H). apply orb_true_r.
Qed.







Ltac peel :=
  repeat first [ rewrite dict_get_set_other by reflexivity
               | rewrite dict_get_put_other by reflexivity ].


(** The fields of a record of [extract_event_details] that this
    development reads. *)
Lemma extract_event_details_fields urljoin soup ev :
  extract_event_details urljoin soup = Ok ev ->
  dict_get (lit "id") ev =
    option_map (fun c => PStr (default [] (tag_get (lit "id") c)))
               (find (lit "div") (lit "group mb-6") soup) /\
  dict_get (lit "nombre") ev =
    match find (lit "div") INFO_CLASS soup with
    | Some info_div =>
      option_map PStr (strip_text (find (lit "div") NAME_CLASS info_div))
    | None => None
    end /\
  dict_get (lit "estado") ev =
    Some (PStr (match find (lit "div") STATUS_CLASS soup with
                | Some b => get_text_strip b
                | None => lit "Finalizado"
                end)) /\
  dict_get (lit "estado_tipo") ev =
    Some (PStr (match find (lit "div") STATUS_CLASS soup with
                | Some b =>
                  if contains (lit "Finalizado") (get_text_strip b)
                     || contains (lit "Completado") (get_text_strip b)
                  then lit "finalizado" else lit "desconocido"
                | None => lit "finalizado"
                end)) /\
  dict_get (lit "tipo") ev = Some (PStr (lit "pasado")).
Proof.
  unfold extract_event_details.
  destruct (resolved urljoin (href_of (contains (lit "/info/")) soup))
    as [info|e]; [|discriminate].
  destruct (resolved urljoin (href_of (contains (lit "/participants_list")) soup))
    as [part|e]; [|discriminate].
  destruct (resolved urljoin (href_of (contains (lit "/runs")) soup))
    as [runs|e]; [|discriminate].
  cbn [and_then]. intros E. injection E as <-.
  destruct (find (lit "div") STATUS_CLASS soup) as [b|];
    [destruct (contains (lit "Finalizado") (get_text_strip b)
               || contains (lit "Completado") (get_text_strip b))|];
    (destruct (find (lit "div") INFO_CLASS soup) as [info_div|]);
    repeat split; peel; rewrite ?dict_get_set_same, ?dict_get_put_same; peel;
    rewrite ?dict_get_set_same, ?dict_get_put_same;
    repeat match goal with
           | |- context [strip_text ?v] => destruct (strip_text v); cbn [put option_map]
           | |- context [option_map _ ?v] => destruct v; cbn [put option_map]
           end; peel; rewrite ?dict_get_set_same; try reflexivity.
Qed.




(* ===================================================================== *)
(** ** The session and the pages: what is called, and how often *)
(* ===================================================================== *)

Module BrowserFacts.



Section Steps.

Context {B : Type}.
Variable driver : WebDriver B.

Lemma adds_ret {A} (Q : list call -> Prop) (a : A) :
  Q [] -> adds Q (ret (S := B * list call) a).
Proof. intros HQ s. exists []. rewrite app_nil_r. split; [reflexivity|exact HQ]. Qed.

Lemma adds_called {A} (Q : list call -> Prop) c (op : M B A) :
  Q [c] -> adds Q (called c op).
Proof.
  intros HQ s. exists [c]. unfold called. destruct (op (fst s)) as [r b'].
  split; [reflexivity|exact HQ].
Qed.

Lemma adds_bind {A A'} (Q1 Q2 Q : list call -> Prop)
    (m : Sel (B := B) A) (k : A -> Sel (B := B) A') :
  adds Q1 m -> (forall a, adds Q2 (k a)) ->
  (forall t, Q1 t -> Q t) ->
  (forall t1 t2, Q1 t1 -> Q2 t2 -> Q (t1 ++ t2)) ->
  adds Q (bind m k).
Proof.
  intros Hm Hk Hraise Happ s. unfold bind.
  destruct (Hm s) as (t1 & E1 & H1).
  destruct (m s) as [[a|e] s1]; cbn [snd] in E1.
  - destruct (Hk a s1) as (t2 & E2 & H2).
    exists (t1 ++ t2). rewrite E2, E1, app_assoc. split; [reflexivity|auto].
  - exists t1. cbn [snd]. split; [exact E1|auto].
Qed.

Lemma adds_try {A} (Q1 Q2 Q : list call -> Prop)
    (m : Sel (B := B) A) (h : exn -> Sel (B := B) A) :
  adds Q1 m -> (forall e, adds Q2 (h e)) ->
  (forall t, Q1 t -> Q t) ->
  (forall t1 t2, Q1 t1 -> Q2 t2 -> Q (t1 ++ t2)) ->
  adds Q (try_except m h).
Proof.
  intros Hm Hh Hok Happ s. unfold try_except.
  destruct (Hm s) as (t1 & E1 & H1).
  destruct (m s) as [[a|e] s1]; cbn [snd] in E1.
  - exists t1. cbn [snd]. split; [exact E1|auto].
  - destruct (Hh e s1) as (t2 & E2 & H2).
    exists (t1 ++ t2). rewrite E2, E1, app_assoc. split; [reflexivity|auto].
Qed.

(** *** Steps that only make calls of a kind [P] *)

Section Quiet.

Variable P : call -> Prop.

Lemma only_ret {A} (a : A) : adds (Forall P) (ret (S := B * list call) a).
Proof. apply adds_ret. constructor. Qed.

Lemma only_called {A} c (op : M B A) : P c -> adds (Forall P) (called c op).
Proof. intros H. apply adds_called. constructor; [exact H|constructor]. Qed.

Lemma only_bind {A A'} (m : Sel (B := B) A) (k : A -> Sel (B := B) A') :
  adds (Forall P) m -> (forall a, adds (Forall P) (k a)) ->
  adds (Forall P) (bind m k).
Proof.
  intros Hm Hk. apply (adds_bind (Forall P) (Forall P)); auto.
  intros t1 t2 H1 H2. apply Forall_app. split; assumption.
Qed.

Lemma only_try {A} (m : Sel (B := B) A) (h : exn -> Sel (B := B) A) :
  adds (Forall P) m -> (forall e, adds (Forall P) (h e)) ->
  adds (Forall P) (try_except m h).
Proof.
  intros Hm Hh. apply (adds_try (Forall P) (Forall P)); auto.
  intros t1 t2 H1 H2. apply Forall_app. split; assumption.
Qed.

Hypothesis Pfind : forall l, P (CallFindElement l).
Hypothesis Pdisplayed : forall e, P (CallIsDisplayed e).
Hypothesis Penabled : forall e, P (CallIsEnabled e).
Hypothesis Pclick : forall e, P (CallClick e).
Hypothesis Psleep : forall ms, P (CallSleep ms).
Hypothesis Pscript : forall code, P (CallExecuteScript code).

Lemma only_until {A} polls (method : Sel (B := B) (option A)) :
  adds (Forall P) method -> adds (Forall P) (until_polls driver polls method).
Proof.
  intros Hm. induction polls as [|p IH]; intros s; cbn [until_polls];
    destruct (Hm s) as (t1 & E1 & H1);
    destruct (method s) as [[[v|]|e] s1]; cbn [snd] in E1.
  - exists t1. split; [exact E1|exact H1].
  - exists t1. split; [exact E1|exact H1].
  - exists t1. destruct (exn_class_of e); cbn [snd]; split; auto.
  - exists t1. split; [exact E1|exact H1].
  - destruct (only_bind (sleep driver POLL_MS) (fun _ => until_polls driver p method)
                (only_called _ _ (Psleep _)) (fun _ => IH) s1) as (t2 & E2 & H2).
    exists (t1 ++ t2). rewrite E2, E1, app_assoc. split; [reflexivity|].
    apply Forall_app. split; assumption.
  - destruct (only_bind (sleep driver POLL_MS) (fun _ => until_polls driver p method)
                (only_called _ _ (Psleep _)) (fun _ => IH) s1) as (t2 & E2 & H2).
    destruct (exn_class_of e); cbn [snd];
      try (exists t1; split; [exact E1|exact H1]).
    exists (t1 ++ t2). rewrite E2, E1, app_assoc. split; [reflexivity|].
    apply Forall_app. split; assumption.
Qed.

Lemma only_scroll rounds last_h :
  adds (Forall P) (scroll_rounds driver rounds last_h).
Proof.
  revert last_h. induction rounds as [|n IH]; intros last_h; cbn [scroll_rounds].
  - apply only_ret.
  - apply only_bind; [apply only_called, Pscript|]. intros _.
    apply only_bind; [apply only_called, Psleep|]. intros _.
    apply only_bind; [apply only_called, Pscript|]. intros h.
    destruct (bool_decide (h = last_h)); [apply only_ret|apply IH].
Qed.




End Quiet.

(** *** Steps that return *)






(** *** The pages read by the steps of the loop *)
















End Steps.

End BrowserFacts.

Import BrowserFacts.

(** C6.  On a site that never lets the user in, the wait that ends the
    first login attempt times out and the [TimeoutException] leaves
    [_ensure_logged_in]: with three tries allowed, one login is started,
    no second one follows and [False] is not returned. *)
Theorem login_timeout_escapes :
  exists b t,
    _ensure_logged_in Sample.stuck_site Sample.email Sample.password 3
      Sample.expired
      = (Raise (Exn TimeoutException []), (b, t)) /\
    logins_started t = 1.
Proof. eexists _, _. split; vm_compute; reflexivity. Qed.




Lemma endless_always_reads : always_reads (Sample.paged_site None).
Proof. split; intros; cbn; eauto. Qed.

Lemma endless_always_advances : always_advances (Sample.paged_site None).
Proof.
  repeat split; intros; cbn; eauto.
  destruct l as [[] sel]; cbn; eauto.
Qed.


(* ===================================================================== *)
(** ** Further properties: the lines of the log *)
(* ===================================================================== *)

Module LineFacts.

Definition visible (c : char) : bool := (0x20 <=? c)%N.

Lemma forallb_Forall_visible s :
  forallb visible s = true -> Forall (fun c => (0x20 <= c)%N) s.
Proof.
  intros H. apply Forall_forall. intros c Hc.
  apply list_elem_of_In in Hc.
  rewrite forallb_forall in H. apply N.leb_le. apply (H c Hc).
Qed.

Lemma hex_digit_visible n : visible (hex_digit n) = true.
Proof.
  unfold hex_digit, visible. destruct (n <? 10)%N; apply N.leb_le; lia.
Qed.

Lemma escape_char_visible c : forallb visible (escape_char c) = true.
Proof.
  unfold escape_char.
  repeat match goal with
  | |- context [if ?b then _ else _] => destruct b eqn:?; [reflexivity|]
  end.
  destruct (c <? 32)%N eqn:E.
  - rewrite forallb_app. cbn [forallb]. rewrite !hex_digit_visible. reflexivity.
  - cbn. unfold visible. apply N.ltb_ge in E. rewrite andb_true_r.
    apply N.leb_le. exact E.
Qed.

Lemma encode_basestring_visible s : forallb visible (encode_basestring s) = true.
Proof.
  unfold encode_basestring. rewrite !forallb_app.
  assert (H : forallb visible (flat_map escape_char s) = true).
  { induction s as [|c t IH]; [reflexivity|].
    cbn [flat_map]. rewrite forallb_app, escape_char_visible, IH. reflexivity. }
  rewrite H. reflexivity.
Qed.

Lemma dumps_visible : forall v, forallb visible (dumps v) = true.
Proof.
  fix IH 1. intros [s | d].
  - apply encode_basestring_visible.
  - cbn [dumps]. rewrite !forallb_app.
    match goal with |- _ && (forallb visible (?f d) && _) = _ =>
      assert (H : forallb visible (f d) = true) end.
    { induction d as [|[k x] rest IHd]; [reflexivity|].
      rewrite !forallb_app, encode_basestring_visible, (IH x).
      destruct rest as [|y rest']; [reflexivity|].
      rewrite forallb_app, IHd. reflexivity. }
    rewrite H. reflexivity.
Qed.

End LineFacts.

(** X1.  A record is written on one line of visible characters: whatever
    the texts of the record hold (line ends, tabs and other control
    characters included), [json.dumps(event, ensure_ascii=False)] writes no
    character below the space, so that the line [add] appends has its only
    line end as its last character. *)
Theorem log_line_visible (ev : dict) :
  Forall (fun c => (0x20 <= c)%N) (dumps (PDict ev)) /\
  line_of ev = dumps (PDict ev) ++ [0x0A%N] /\
  ~ In 0x0A%N (dumps (PDict ev)).
Proof.
  pose proof (LineFacts.forallb_Forall_visible _ (LineFacts.dumps_visible (PDict ev)))
    as H.
  split; [exact H|]. split; [reflexivity|].
  intros Hin. rewrite Forall_forall in H.
  apply list_elem_of_In in Hin. specialize (H _ Hin). lia.
Qed.

(* ===================================================================== *)
(** ** Further properties: cleaned text and ids *)
(* ===================================================================== *)

Module TextFacts.

(** *** Stripping *)

Lemma lstrip_chars_suffix chars s : exists p, s = p ++ lstrip_chars chars s.
Proof.
  induction s as [|c t (p & IH)]; [exists []; reflexivity|].
  cbn. destruct (chr_in c chars).
  - exists (c :: p). cbn. rewrite <- IH. reflexivity.
  - exists []. reflexivity.
Qed.

Lemma lstrip_chars_head chars s c :
  head (lstrip_chars chars s) = Some c -> chr_in c chars = false.
Proof.
  induction s as [|d t IH]; cbn; [discriminate|].
  destruct (chr_in d chars) eqn:E; [exact IH|].
  cbn. intros H. injection H as <-. exact E.
Qed.

Lemma lstrip_chars_fixed chars s :
  match s with [] => True | c :: _ => chr_in c chars = false end ->
  lstrip_chars chars s = s.
Proof. destruct s as [|c t]; [reflexivity|]. cbn. intros ->. reflexivity. Qed.

Lemma rstrip_chars_prefix chars s : exists q, s = rstrip_chars chars s ++ q.
Proof.
  unfold rstrip_chars. destruct (lstrip_chars_suffix chars (rev s)) as (p & E).
  exists (rev p). rewrite <- rev_app_distr, <- E, rev_involutive. reflexivity.
Qed.

Lemma head_rev {A} (l : list A) : head (rev l) = last l.
Proof.
  induction l as [|a l IH] using rev_ind; [reflexivity|].
  rewrite rev_app_distr, last_app. reflexivity.
Qed.

Lemma rstrip_chars_last chars s c :
  last (rstrip_chars chars s) = Some c -> chr_in c chars = false.
Proof.
  unfold rstrip_chars. rewrite <- head_rev, rev_involutive.
  apply lstrip_chars_head.
Qed.

Lemma rstrip_chars_fixed chars s :
  match last s with None => True | Some c => chr_in c chars = false end ->
  rstrip_chars chars s = s.
Proof.
  intros H. unfold rstrip_chars. rewrite lstrip_chars_fixed.
  - apply rev_involutive.
  - rewrite <- head_rev in H. destruct (rev s); [exact I|exact H].
Qed.

Lemma head_prefix {A} (a q : list A) c : head a = Some c -> head (a ++ q) = Some c.
Proof. destruct a; [discriminate|]. cbn. auto. Qed.

Lemma strip_chars_ends chars s c :
  head (strip_chars chars s) = Some c \/ last (strip_chars chars s) = Some c ->
  chr_in c chars = false.
Proof.
  unfold strip_chars. intros [H|H].
  - destruct (rstrip_chars_prefix chars (lstrip_chars chars s)) as (q & E).
    apply (lstrip_chars_head chars s). rewrite E. apply head_prefix. exact H.
  - apply (rstrip_chars_last _ _ _ H).
Qed.

Lemma strip_chars_fixed chars s :
  match s with [] => True | c :: _ => chr_in c chars = false end ->
  match last s with None => True | Some c => chr_in c chars = false end ->
  strip_chars chars s = s.
Proof.
  intros H1 H2. unfold strip_chars.
  rewrite lstrip_chars_fixed by exact H1. apply rstrip_chars_fixed. exact H2.
Qed.

(** What is stripped is a part of the text: a prefix and a suffix go. *)
Lemma strip_chars_infix chars s : exists p q, s = p ++ strip_chars chars s ++ q.
Proof.
  unfold strip_chars.
  destruct (lstrip_chars_suffix chars s) as (p & E1).
  destruct (rstrip_chars_prefix chars (lstrip_chars chars s)) as (q & E2).
  exists p, q. rewrite <- E2. exact E1.
Qed.

(** *** [in] and the parts of a text *)

Lemma startswith_prefix n a b : startswith n a = true -> startswith n (a ++ b) = true.
Proof.
  revert a. induction n as [|x n IH]; intros a H; [reflexivity|].
  destruct a as [|y a]; cbn in *; [discriminate|].
  apply andb_true_iff in H as (H1 & H2). rewrite H1, (IH _ H2). reflexivity.
Qed.

Lemma contains_prefix n a b : contains n a = true -> contains n (a ++ b) = true.
Proof.
  induction a as [|y a IH]; cbn; intros H.
  - rewrite orb_false_r in H. destruct n; [|discriminate].
    destruct b; reflexivity.
  - apply orb_true_iff in H as [H|H].
    + change (startswith n ((y :: a) ++ b) || contains n (a ++ b) = true).
      rewrite (startswith_prefix _ _ _ H). reflexivity.
    + rewrite (IH H). apply orb_true_r.
Qed.

Lemma contains_suffix n a b : contains n b = true -> contains n (a ++ b) = true.
Proof.
  induction a as [|y a IH]; cbn; intros H; [exact H|].
  rewrite (IH H). apply orb_true_r.
Qed.

Lemma contains_infix n p a q : contains n a = true -> contains n (p ++ a ++ q) = true.
Proof. intros H. apply contains_suffix, contains_prefix. exact H. Qed.

Lemma not_contains_strip n chars s :
  contains n s = false -> contains n (strip_chars chars s) = false.
Proof.
  intros H. destruct (contains n (strip_chars chars s)) eqn:E; [|reflexivity].
  destruct (strip_chars_infix chars s) as (p & q & Es).
  rewrite Es in H. rewrite (contains_infix _ p _ q E) in H. discriminate.
Qed.

(** *** Blanks *)

Definition tab : str := [0x09%N].
Definition two_spaces : str := [0x20%N; 0x20%N].

Lemma collapse_no_tab s : forall run, contains tab (collapse_blanks run s) = false.
Proof.
  induction s as [|c t IH]; intros run; [reflexivity|].
  cbn [collapse_blanks].
  destruct (chr_eqb c 32 || chr_eqb c 9) eqn:E.
  - destruct run; [apply IH|].
    cbn [contains]. rewrite IH. reflexivity.
  - cbn [contains]. rewrite IH. apply orb_false_iff in E as (_ & E).
    cbn [startswith tab]. unfold chr_eqb in *. rewrite N.eqb_sym, E. reflexivity.
Qed.

Lemma collapse_run_head s c :
  head (collapse_blanks true s) = Some c -> c <> 0x20%N.
Proof.
  induction s as [|d t IH]; cbn [collapse_blanks]; [discriminate|].
  destruct (chr_eqb d 32 || chr_eqb d 9) eqn:E; [exact IH|].
  cbn. intros H. injection H as <-. apply orb_false_iff in E as (E & _).
  apply N.eqb_neq in E. exact E.
Qed.

Lemma collapse_no_two_spaces s :
  forall run, contains two_spaces (collapse_blanks run s) = false.
Proof.
  induction s as [|c t IH]; intros run; [reflexivity|].
  cbn [collapse_blanks].
  destruct (chr_eqb c 32 || chr_eqb c 9) eqn:E.
  - destruct run; [apply IH|].
    cbn [contains]. rewrite IH, orb_false_r.
    cbn [startswith two_spaces]. cbn [chr_eqb andb].
    pose proof (collapse_run_head t) as Hh.
    destruct (collapse_blanks true t) as [|d r]; [reflexivity|].
    specialize (Hh d eq_refl). unfold chr_eqb.
    change (32 =? 32)%N with true. cbn [andb].
    destruct (32 =? d)%N eqn:Ed; [|reflexivity].
    apply N.eqb_eq in Ed. congruence.
  - cbn [contains]. rewrite IH, orb_false_r.
    apply orb_false_iff in E as (E & _).
    cbn [startswith two_spaces]. unfold chr_eqb in *. rewrite N.eqb_sym, E.
    reflexivity.
Qed.

(** A text without tabs and without two spaces in a row has no run of
    blanks to collapse. *)
Lemma collapse_fixed s :
  contains tab s = false -> contains two_spaces s = false ->
  collapse_blanks false s = s /\
  (match s with c :: _ => c <> 0x20%N | [] => True end -> collapse_blanks true s = s).
Proof.
  induction s as [|c t IH]; intros Ht Hs; [split; reflexivity|].
  cbn [contains] in Ht, Hs.
  apply orb_false_iff in Ht as (Ht1 & Ht2).
  apply orb_false_iff in Hs as (Hs1 & Hs2).
  destruct (IH Ht2 Hs2) as (IH1 & IH2).
  assert (Hc9 : chr_eqb c 9 = false).
  { cbn [startswith tab] in Ht1. unfold chr_eqb in *. rewrite N.eqb_sym.
    rewrite andb_true_r in Ht1. exact Ht1. }
  cbn [collapse_blanks]. rewrite Hc9, orb_false_r.
  destruct (chr_eqb c 32) eqn:Hc.
  - apply N.eqb_eq in Hc. subst c.
    assert (Hnext : match t with d :: _ => d <> 32%N | [] => True end).
    { destruct t as [|d r]; [exact I|]. cbn [startswith two_spaces] in Hs1.
      unfold chr_eqb in Hs1. intros ->. discriminate. }
    rewrite (IH2 Hnext). split; [reflexivity|]. intros H. congruence.
  - rewrite IH1. split; reflexivity.
Qed.

(** *** Replacing *)

Lemma replace_from_absent old new s :
  contains old s = false -> replace_from old new 0 s = s.
Proof.
  induction s as [|c t IH]; intros H; [reflexivity|].
  cbn [contains] in H. apply orb_false_iff in H as (H1 & H2).
  cbn [replace_from]. rewrite H1, (IH H2). reflexivity.
Qed.

Lemma replace_from_skip old new o x :
  replace_from old new (length o) (o ++ x) = replace_from old new 0 x.
Proof.
  induction o as [|c o IH]; [reflexivity|].
  cbn [length app replace_from]. destruct x, o; exact IH.
Qed.

Lemma startswith_self a x : startswith a (a ++ x) = true.
Proof.
  induction a as [|c a IH]; [destruct x; reflexivity|].
  cbn. rewrite chr_eqb_refl. exact IH.
Qed.

Lemma replace_prefix old new x :
  old <> [] -> replace old new (old ++ x) = new ++ replace old new x.
Proof.
  intros Hne. destruct old as [|c o]; [contradiction|].
  unfold replace. change ((c :: o) ++ x) with (c :: (o ++ x)).
  cbn [replace_from].
  change (startswith (c :: o) (c :: o ++ x)) with (startswith (c :: o) ((c :: o) ++ x)).
  rewrite startswith_self.
  replace (length (c :: o) - 1) with (length o) by (cbn [length]; lia).
  rewrite replace_from_skip. reflexivity.
Qed.

(** *** [_clean] *)

Lemma clean_ends nfkc s c :
  head (_clean nfkc s) = Some c \/ last (_clean nfkc s) = Some c ->
  chr_in c CLEAN_CHARS = false.
Proof.
  unfold _clean. destruct s as [|x r].
  - intros [H|H]; discriminate.
  - apply strip_chars_ends.
Qed.

Lemma clean_blanks nfkc s :
  contains tab (_clean nfkc s) = false /\
  contains two_spaces (_clean nfkc s) = false.
Proof.
  unfold _clean. destruct s as [|x r]; [split; reflexivity|]. split.
  - apply not_contains_strip. apply collapse_no_tab.
  - apply not_contains_strip. apply collapse_no_two_spaces.
Qed.

End TextFacts.

Import TextFacts.

(** X2.  A cleaned text is trimmed: whatever the text and whatever the
    normalisation gives, the result of [_clean] neither begins nor ends
    with one of the characters it strips (blank, tab, line end, dash,
    bullet, star, middle dot, colon, semicolon). *)
Theorem clean_trimmed (nfkc : str -> str) (s : str) (c : char) :
  head (_clean nfkc s) = Some c \/ last (_clean nfkc s) = Some c ->
  chr_in c CLEAN_CHARS = false.
Proof. apply clean_ends. Qed.

(** The name of the scenario begins with an [S], which is not stripped. *)
Lemma clean_trimmed_witness :
  chr_in 83%N CLEAN_CHARS = false.
Proof.
  apply (clean_trimmed Sample.nfkc_ascii (lit "  Spring  Trial  ") 83%N).
  left. reflexivity.
Defined.

(** X3.  A cleaned text has no run of blanks: it holds no tab and no two
    spaces in a row, whatever the text and the normalisation. *)
Theorem clean_single_spaced (nfkc : str -> str) (s : str) :
  contains [0x09%N] (_clean nfkc s) = false /\
  contains (lit "  ") (_clean nfkc s) = false.
Proof. apply clean_blanks. Qed.

(** X4.  Cleaning once is enough: on a cleaned text that the normalisation
    leaves as it is, [_clean] changes nothing. *)
Theorem clean_idempotent (nfkc : str -> str) (s : str) :
  nfkc (_clean nfkc s) = _clean nfkc s ->
  _clean nfkc (_clean nfkc s) = _clean nfkc s.
Proof.
  intros Hn.
  pose proof (clean_blanks nfkc s) as (Ht & Hs).
  pose proof (clean_ends nfkc s) as He.
  destruct (_clean nfkc s) as [|x r] eqn:E; [reflexivity|].
  unfold _clean at 1. rewrite Hn.
  rewrite (proj1 (collapse_fixed _ Ht Hs)).
  apply strip_chars_fixed.
  - apply He. left. reflexivity.
  - destruct (last (x :: r)) as [d|] eqn:El; [|exact I].
    apply He. right. reflexivity.
Qed.

Lemma clean_idempotent_witness :
  _clean Sample.nfkc_ascii (_clean Sample.nfkc_ascii (lit "  Spring  Trial  "))
    = _clean Sample.nfkc_ascii (lit "  Spring  Trial  ").
Proof.
  apply (clean_idempotent Sample.nfkc_ascii (lit "  Spring  Trial  ")).
  reflexivity.
Defined.

(* ===================================================================== *)
(** ** Further properties: the fields of a record *)
(* ===================================================================== *)

Module FieldFacts.

Ltac look :=
  repeat first [ rewrite dict_get_set_other by reflexivity
               | rewrite dict_get_put_other by reflexivity
               | rewrite dict_get_set_same
               | rewrite dict_get_put_same ].

Lemma head_map {A A'} (f : A -> A') l : head (List.map f l) = option_map f (head l).
Proof. destruct l; reflexivity. Qed.

Lemma nth_error_0_head {A} (l : list A) : nth_error l 0 = head l.
Proof. destruct l; reflexivity. Qed.

(** The place a record gets: the first small text with a slash and one of
    the four words, or else the first short one with a slash. *)
Definition lugar_of (nfkc : str -> str) (c : node) : option str :=
  match lugar_rule nfkc c with
  | Some t => Some t
  | None => lugar_fallback nfkc c
  end.

(** The participants link of a record: the link found, resolved, or else
    the one built from the id. *)
Definition participants_of (part : option str) (c : node) : option pyval :=
  match part with
  | Some u => Some (PStr u)
  | None => option_map (fun i => PStr (canonical_participants i)) (id_rule c)
  end.

(** Every field of a record of [extract_events] is what its rule found. *)
Lemma extract_event_record nfkc urljoin c ev :
  extract_event nfkc urljoin c = Ok ev ->
  dict_get (lit "fechas") ev =
    option_map PStr (nth_error (small_texts nfkc c) 0) /\
  dict_get (lit "organizacion") ev =
    option_map PStr (nth_error (small_texts nfkc c) 1) /\
  dict_get (lit "club") ev = option_map PStr (club_rule nfkc c) /\
  dict_get (lit "lugar") ev = option_map PStr (lugar_of nfkc c) /\
  dict_get (lit "pais_bandera") ev =
    Some (PStr (match find (lit "div") (lit "text-md") c with
                | Some f => _clean nfkc (get_text f)
                | None => lit "🇪🇸"
                end)) /\
  exists info part enlaces,
    resolved urljoin (info_href c) = Ok info /\
    resolved urljoin (participants_href c) = Ok part /\
    dict_get (lit "enlaces") ev = Some (PDict enlaces) /\
    dict_get (lit "info") enlaces = option_map PStr info /\
    dict_get (lit "participantes") enlaces = participants_of part c.
Proof.
  unfold extract_event.
  assert (Hfechas : text_of nfkc (find (lit "div") (lit "text-xs") c)
                    = nth_error (small_texts nfkc c) 0).
  { unfold text_of, small_texts, find. rewrite nth_error_0_head, head_map.
    reflexivity. }
  rewrite Hfechas.
  destruct (resolved urljoin (info_href c)) as [info|e]; [|discriminate].
  destruct (resolved urljoin (participants_href c)) as [part|e]; [|discriminate].
  cbn [and_then].
  set (ev4 := put (lit "club") _ _).
  assert (H4 : dict_get (lit "lugar") ev4 = None).
  { subst ev4. look.
    repeat match goal with
           | |- context [match ?v with Some _ => _ | None => _ end] => destruct v
           end; reflexivity. }
  set (ev5 := if has_key (lit "lugar") (put (lit "lugar") (lugar_rule nfkc c) ev4)
              then put (lit "lugar") (lugar_rule nfkc c) ev4
              else put (lit "lugar") (lugar_fallback nfkc c)
                     (put (lit "lugar") (lugar_rule nfkc c) ev4)).
  assert (H5 : dict_get (lit "lugar") ev5 = option_map PStr (lugar_of nfkc c)).
  { subst ev5. unfold lugar_of. rewrite has_key_get.
    destruct (lugar_rule nfkc c) as [t|]; cbn [put].
    - rewrite dict_get_set_same. apply dict_get_set_same.
    - rewrite H4, dict_get_put_same, H4.
      destruct (lugar_fallback nfkc c); reflexivity. }
  assert (Hother : forall k,
            str_eqb k (lit "lugar") = false ->
            dict_get k ev5 = dict_get k ev4).
  { intros k Hk. subst ev5.
    destruct (has_key (lit "lugar") (put (lit "lugar") (lugar_rule nfkc c) ev4));
      rewrite ?dict_get_put_other by exact Hk; reflexivity. }
  intros E. injection E as <-.
  split; [|split; [|split; [|split; [|split]]]].
  - look. rewrite Hother by reflexivity. subst ev4. look.
    destruct (nth_error (small_texts nfkc c) 0); [reflexivity|].
    look. destruct (id_rule c); reflexivity.
  - look. rewrite Hother by reflexivity. subst ev4. look.
    destruct (nth_error (small_texts nfkc c) 1); [reflexivity|].
    look.
    repeat match goal with
           | |- context [match ?v with Some _ => _ | None => _ end] => destruct v
           end; reflexivity.
  - look. rewrite Hother by reflexivity. subst ev4. look.
    destruct (club_rule nfkc c); [reflexivity|]. look.
    repeat match goal with
           | |- context [match ?v with Some _ => _ | None => _ end] => destruct v
           end; reflexivity.
  - look. exact H5.
  - look. reflexivity.
  - exists info, part. eexists. split; [reflexivity|]. split; [reflexivity|].
    split; [look; reflexivity|].
    assert (Hi : dict_get (lit "id") ev5 = option_map PStr (id_rule c)).
    { rewrite Hother by reflexivity. subst ev4. look.
      destruct (id_rule c); reflexivity. }
    rewrite Hi. split.
    + destruct part as [u|]; cbn [put];
        [destruct info; cbn [put]; look; reflexivity|].
      rewrite has_key_get.
      destruct info as [i|]; cbn [put]; look; cbn [dict_get negb];
        destruct (id_rule c); cbn [option_map]; look; reflexivity.
    + unfold participants_of. destruct part as [u|]; cbn [put].
      * rewrite has_key_get. look. cbn [negb]. look. reflexivity.
      * rewrite has_key_get.
        destruct info as [i|]; cbn [put]; look; cbn [dict_get negb];
          destruct (id_rule c); cbn [option_map]; look; reflexivity.
Qed.

(** What a rule finds in the info block of the page, if the block is
    there. *)
Definition in_info_block (soup : node) (rule : node -> option str) : option str :=
  match find (lit "div") INFO_CLASS soup with
  | Some info_div => rule info_div
  | None => None
  end.

Definition small_strips (info_div : node) : list str :=
  List.map get_text_strip (find_all (lit "div") (lit "text-xs") info_div).

Lemma nth_error_strip l n :
  strip_text (nth_error l n) = nth_error (List.map get_text_strip l) n.
Proof. unfold strip_text. symmetry. apply nth_error_map. Qed.

Ltac settle :=
  look;
  repeat (match goal with
          | |- context [match ?v with Some _ => _ | None => _ end] => destruct v
          end; cbn [option_map put]; look);
  try reflexivity.

(** The links and the fields of the info block of a record of
    [extract_event_details]. *)
Lemma extract_event_details_record urljoin soup ev :
  extract_event_details urljoin soup = Ok ev ->
  dict_get (lit "fechas") ev =
    option_map PStr (in_info_block soup (fun d => nth_error (small_strips d) 0)) /\
  dict_get (lit "organizacion") ev =
    option_map PStr (in_info_block soup (fun d => nth_error (small_strips d) 1)) /\
  dict_get (lit "club") ev =
    option_map PStr
      (in_info_block soup (fun d => strip_text (find (lit "div") CLUB_CLASS d))) /\
  dict_get (lit "lugar") ev =
    option_map PStr
      (in_info_block soup (fun d =>
         List.find (fun t => contains (lit "/") t &&
                             (contains (lit "Spain") t || contains (lit "España") t))
                   (small_strips d))) /\
  dict_get (lit "pais_bandera") ev =
    option_map PStr (strip_text (find (lit "div") (lit "text-md") soup)) /\
  exists info part runs enlaces,
    resolved urljoin (href_of (contains (lit "/info/")) soup) = Ok info /\
    resolved urljoin (href_of (contains (lit "/participants_list")) soup) = Ok part /\
    resolved urljoin (href_of (contains (lit "/runs")) soup) = Ok runs /\
    dict_get (lit "enlaces") ev = Some (PDict enlaces) /\
    dict_get (lit "info") enlaces = option_map PStr info /\
    dict_get (lit "participantes") enlaces = option_map PStr part /\
    dict_get (lit "runs") enlaces = option_map PStr runs.
Proof.
  unfold extract_event_details, in_info_block, small_strips.
  destruct (resolved urljoin (href_of (contains (lit "/info/")) soup))
    as [info|e]; [|discriminate].
  destruct (resolved urljoin (href_of (contains (lit "/participants_list")) soup))
    as [part|e]; [|discriminate].
  destruct (resolved urljoin (href_of (contains (lit "/runs")) soup))
    as [runs|e]; [|discriminate].
  cbn [and_then]. intros E. injection E as <-.
  set (shown := find (lit "div") (lit "group mb-6") soup).
  set (flag := strip_text (find (lit "div") (lit "text-md") soup)).
  assert (Hblock : forall k,
            In k [lit "fechas"; lit "organizacion"; lit "club"; lit "lugar";
                  lit "pais_bandera"] ->
            forall ev1, dict_get k ev1 = dict_get k
              (match find (lit "div") STATUS_CLASS soup with
               | Some status_button =>
                 if contains (lit "Finalizado") (get_text_strip status_button)
                    || contains (lit "Completado") (get_text_strip status_button)
                 then dict_set (lit "estado_tipo") (PStr (lit "finalizado"))
                        (dict_set (lit "estado")
                           (PStr (get_text_strip status_button)) ev1)
                 else dict_set (lit "estado_tipo") (PStr (lit "desconocido"))
                        (dict_set (lit "estado")
                           (PStr (get_text_strip status_button)) ev1)
               | None =>
                 dict_set (lit "estado_tipo") (PStr (lit "finalizado"))
                   (dict_set (lit "estado") (PStr (lit "Finalizado")) ev1)
               end)).
  { intros k Hk ev1.
    destruct (find (lit "div") STATUS_CLASS soup) as [b|];
      [destruct (contains (lit "Finalizado") (get_text_strip b)
                 || contains (lit "Completado") (get_text_strip b))|];
      destruct Hk as [<- | [<- | [<- | [<- | [<- | []]]]]]; look; reflexivity. }
  split; [|split; [|split; [|split; [|split]]]].
  - destruct flag; cbn [put]; look;
      (rewrite <- Hblock by (cbn; tauto));
      (destruct (find (lit "div") INFO_CLASS soup) as [info_div|]);
      cbv zeta;
      try (destruct (find_all (lit "div") (lit "text-xs") info_div)
             as [|d1 [|d2 rest]]);
      cbn [nth_error List.map strip_text option_map put]; settle.
  - destruct flag; cbn [put]; look;
      (rewrite <- Hblock by (cbn; tauto));
      (destruct (find (lit "div") INFO_CLASS soup) as [info_div|]);
      cbv zeta;
      try (destruct (find_all (lit "div") (lit "text-xs") info_div)
             as [|d1 [|d2 rest]]);
      cbn [nth_error List.map strip_text option_map put]; settle.
  - destruct flag; cbn [put]; look;
      (rewrite <- Hblock by (cbn; tauto));
      (destruct (find (lit "div") INFO_CLASS soup) as [info_div|]);
      cbv zeta;
      try (destruct (find_all (lit "div") (lit "text-xs") info_div)
             as [|d1 [|d2 rest]]);
      cbn [nth_error List.map strip_text option_map put]; settle.
  - destruct flag; cbn [put]; look;
      (rewrite <- Hblock by (cbn; tauto));
      (destruct (find (lit "div") INFO_CLASS soup) as [info_div|]);
      cbv zeta;
      try (destruct (find_all (lit "div") (lit "text-xs") info_div)
             as [|d1 [|d2 rest]]);
      cbn [nth_error List.map strip_text option_map put]; settle.
  - destruct flag eqn:Hflag; cbn [put option_map]; look; [reflexivity|].
    rewrite <- Hblock by (cbn; tauto).
    destruct (find (lit "div") INFO_CLASS soup) as [info_div|]; settle.
  - exists info, part, runs. eexists.
    split; [reflexivity|]. split; [reflexivity|]. split; [reflexivity|].
    split.
    + destruct flag; cbn [put]; look; reflexivity.
    + destruct info, part, runs; cbn [put option_map]; look;
        repeat split; reflexivity.
Qed.

(** The loop over the participant links stops at the first anchor, in
    document order, whose href holds [/participants_list] or
    [/participantes]: the filter that builds the list lets every such
    anchor through. *)
Lemma participants_href_first c :
  participants_href c =
    option_map (fun a => default [] (tag_get (lit "href") a))
               (List.find participants_anchor (descendants c)).
Proof.
  unfold participants_href, find_all_href.
  induction (descendants c) as [|d l IH]; [reflexivity|].
  cbn [List.filter List.find].
  unfold participants_anchor at 1.
  destruct (is_tag (lit "a") d) eqn:Ha; cbn [andb]; [|exact IH].
  unfold href_is. destruct (tag_get (lit "href") d) as [[|x r]|] eqn:Hh;
    try exact IH.
  destruct (contains (lit "/participants_list") (x :: r)
            || contains (lit "/participantes") (x :: r)) eqn:Hp.
  - assert (Hany : any_in [lit "/participants"; lit "/participantes"] (x :: r) = true).
    { apply orb_true_iff in Hp as [Hp|Hp].
      - apply any_in_first.
        apply (contains_app (lit "/participants") (lit "_list")). exact Hp.
      - apply any_in_later, any_in_first. exact Hp. }
    rewrite Hany. cbn [List.map List.find]. rewrite Hh. cbn [default from_option].
    unfold id. rewrite Hp. cbn [option_map]. rewrite Hh. reflexivity.
  - destruct (any_in [lit "/participants"; lit "/participantes"] (x :: r));
      [|exact IH].
    cbn [List.map List.find]. rewrite Hh. cbn [default from_option]. unfold id.
    rewrite Hp. exact IH.
Qed.

End FieldFacts.

Import FieldFacts.

(** X5.  The id of a record of [extract_events] is the id attribute
    without its [event-card-] marker: an attribute that begins with the
    marker loses it, one that does not hold the marker is kept whole. *)
Theorem record_id_without_marker
    (nfkc : str -> str) (urljoin : str -> str -> result str)
    (c : node) (i : str) (ev : dict) :
  tag_get (lit "id") c = Some i ->
  i <> [] ->
  extract_event nfkc urljoin c = Ok ev ->
  (contains (lit "event-card-") i = false ->
     dict_get (lit "id") ev = Some (PStr i)) /\
  (forall x, i = lit "event-card-" ++ x ->
     contains (lit "event-card-") x = false ->
     dict_get (lit "id") ev = Some (PStr x)).
Proof.
  intros Hid Hne E. rewrite (extract_event_id _ _ _ _ E).
  unfold id_rule. rewrite Hid. destruct i as [|a r]; [contradiction|].
  cbn [option_map]. split.
  - intros Hno. unfold replace. rewrite replace_from_absent by exact Hno.
    reflexivity.
  - intros x Hx Hno. rewrite Hx, replace_prefix by discriminate.
    unfold replace. rewrite replace_from_absent by exact Hno. reflexivity.
Qed.

Lemma record_id_without_marker_witness :
  exists ev,
    extract_event Sample.nfkc_ascii Sample.urljoin_path Sample.listed_card = Ok ev /\
    (contains (lit "event-card-") (lit "event-card-xyz789") = false ->
       dict_get (lit "id") ev = Some (PStr (lit "event-card-xyz789"))) /\
    (forall x, lit "event-card-xyz789" = lit "event-card-" ++ x ->
       contains (lit "event-card-") x = false ->
       dict_get (lit "id") ev = Some (PStr x)).
Proof.
  eexists. split; [vm_compute; reflexivity|].
  apply (record_id_without_marker Sample.nfkc_ascii Sample.urljoin_path
           Sample.listed_card (lit "event-card-xyz789")).
  - reflexivity.
  - discriminate.
  - vm_compute. reflexivity.
Defined.

(** X6.  Dates and organiser are taken by position: in a record of
    [extract_events], [fechas] is the cleaned text of the first [div] of
    class [text-xs] below the container and [organizacion] that of the
    second; each is absent when there is no such [div]. *)
Theorem dates_then_organiser
    (nfkc : str -> str) (urljoin : str -> str -> result str)
    (c : node) (ev : dict) :
  extract_event nfkc urljoin c = Ok ev ->
  dict_get (lit "fechas") ev =
    option_map (fun d => PStr (_clean nfkc (get_text d)))
               (nth_error (find_all (lit "div") (lit "text-xs") c) 0) /\
  dict_get (lit "organizacion") ev =
    option_map (fun d => PStr (_clean nfkc (get_text d)))
               (nth_error (find_all (lit "div") (lit "text-xs") c) 1).
Proof.
  intros E. destruct (extract_event_record _ _ _ _ E) as (H1 & H2 & _).
  rewrite H1, H2. unfold small_texts. rewrite !nth_error_map.
  split;
    [destruct (nth_error (find_all (lit "div") (lit "text-xs") c) 0)
    |destruct (nth_error (find_all (lit "div") (lit "text-xs") c) 1)];
    reflexivity.
Qed.

Lemma dates_then_organiser_witness :
  exists ev,
    extract_event Sample.nfkc_ascii Sample.urljoin_path Sample.listed_card = Ok ev /\
    dict_get (lit "fechas") ev =
      option_map (fun d => PStr (_clean Sample.nfkc_ascii (get_text d)))
        (nth_error (find_all (lit "div") (lit "text-xs") Sample.listed_card) 0) /\
    dict_get (lit "organizacion") ev =
      option_map (fun d => PStr (_clean Sample.nfkc_ascii (get_text d)))
        (nth_error (find_all (lit "div") (lit "text-xs") Sample.listed_card) 1).
Proof.
  eexists. split; [vm_compute; reflexivity|].
  apply (dates_then_organiser Sample.nfkc_ascii Sample.urljoin_path
           Sample.listed_card).
  vm_compute. reflexivity.
Defined.

(** X7.  Place and club are told apart by the slash.  The [lugar] of a
    record of [extract_events] is one of the cleaned small texts, holds a
    slash, and either names one of the four places of the rule or is
    shorter than 100 characters.  Without a [div] of the club class, the
    [club] is a cleaned small text that is not empty and holds neither a
    slash nor [Spain] nor [España]; so such a club is never the place. *)
Theorem place_and_club
    (nfkc : str -> str) (urljoin : str -> str -> result str)
    (c : node) (ev : dict) :
  extract_event nfkc urljoin c = Ok ev ->
  (forall v, dict_get (lit "lugar") ev = Some v ->
     exists t, v = PStr t /\ In t (small_texts nfkc c) /\
       contains (lit "/") t = true /\
       (any_in [lit "Spain"; lit "España"; lit "Madrid"; lit "Barcelona"] t = true
        \/ length t < 100)) /\
  (find (lit "div") CLUB_CLASS c = None ->
   forall v, dict_get (lit "club") ev = Some v ->
     exists t, v = PStr t /\ In t (small_texts nfkc c) /\ t <> [] /\
       contains (lit "/") t = false /\
       contains (lit "Spain") t = false /\
       contains (lit "España") t = false) /\
  (find (lit "div") CLUB_CLASS c = None ->
   forall v, dict_get (lit "club") ev = Some v ->
     dict_get (lit "lugar") ev <> Some v).
Proof.
  intros E.
  destruct (extract_event_record _ _ _ _ E) as (_ & _ & Hclub & Hlugar & _).
  assert (Hplace : forall v, dict_get (lit "lugar") ev = Some v ->
     exists t, v = PStr t /\ In t (small_texts nfkc c) /\
       contains (lit "/") t = true /\
       (any_in [lit "Spain"; lit "España"; lit "Madrid"; lit "Barcelona"] t = true
        \/ length t < 100)).
  { intros v Hv. rewrite Hlugar in Hv. unfold lugar_of in Hv.
    destruct (lugar_rule nfkc c) as [t|] eqn:Hr.
    - injection Hv as <-. exists t. split; [reflexivity|].
      apply find_some in Hr as (Hin & Hp).
      apply andb_true_iff in Hp as (Hs & Hw). auto.
    - destruct (lugar_fallback nfkc c) as [t|] eqn:Hf; [|discriminate].
      injection Hv as <-. exists t. split; [reflexivity|].
      apply find_some in Hf as (Hin & Hp).
      apply andb_true_iff in Hp as (Hs & Hl). apply Nat.ltb_lt in Hl. auto. }
  assert (Hfallback : find (lit "div") CLUB_CLASS c = None ->
     forall v, dict_get (lit "club") ev = Some v ->
     exists t, v = PStr t /\ In t (small_texts nfkc c) /\ t <> [] /\
       contains (lit "/") t = false /\
       contains (lit "Spain") t = false /\
       contains (lit "España") t = false).
  { intros Hnone v Hv. rewrite Hclub in Hv. unfold club_rule in Hv.
    rewrite Hnone in Hv.
    match type of Hv with
    | option_map _ ?f = _ => destruct f as [t|] eqn:Hf; [|discriminate]
    end.
    injection Hv as <-. exists t. split; [reflexivity|].
    apply find_some in Hf as (Hin & Hp). destruct t as [|x r]; [discriminate|].
    apply negb_true_iff in Hp. unfold any_in in Hp. cbn [existsb] in Hp.
    apply orb_false_iff in Hp as (H1 & Hp).
    apply orb_false_iff in Hp as (H2 & Hp).
    apply orb_false_iff in Hp as (H3 & _).
    repeat split; try assumption. discriminate. }
  split; [exact Hplace|]. split; [exact Hfallback|].
  intros Hnone v Hv Hl.
  destruct (Hfallback Hnone v Hv) as (t & -> & _ & _ & Hno & _).
  destruct (Hplace _ Hl) as (u & Hu & _ & Hyes & _).
  injection Hu as <-. congruence.
Qed.

Lemma place_and_club_witness :
  exists ev,
    extract_event Sample.nfkc_ascii Sample.urljoin_path Sample.loose_card = Ok ev /\
    dict_get (lit "lugar") ev = Some (PStr (lit "Sevilla / Andalucia")) /\
    dict_get (lit "club") ev = Some (PStr (lit "1 Oct")) /\
    dict_get (lit "lugar") ev <> Some (PStr (lit "1 Oct")).
Proof.
  eexists. split; [vm_compute; reflexivity|].
  split; [vm_compute; reflexivity|]. split; [vm_compute; reflexivity|].
  refine (proj2 (proj2 (place_and_club Sample.nfkc_ascii Sample.urljoin_path
                          Sample.loose_card _ _)) _ _ _).
  - vm_compute. reflexivity.
  - vm_compute. reflexivity.
  - vm_compute. reflexivity.
Defined.

(** X8.  The participants link of a record of [extract_events].  The link
    is the href, resolved against the base, of the first anchor in document
    order whose href holds [/participants_list] or [/participantes]; with
    no such anchor it is built from the id of the record; with neither
    anchor nor id the record has no participants link. *)
Theorem participants_link_first_anchor
    (nfkc : str -> str) (urljoin : str -> str -> result str)
    (c : node) (ev : dict) :
  extract_event nfkc urljoin c = Ok ev ->
  exists enlaces,
    dict_get (lit "enlaces") ev = Some (PDict enlaces) /\
    match List.find participants_anchor (descendants c) with
    | Some a =>
      exists h u,
        tag_get (lit "href") a = Some h /\ urljoin BASE h = Ok u /\
        dict_get (lit "participantes") enlaces = Some (PStr u)
    | None =>
      dict_get (lit "participantes") enlaces =
        match id_rule c with
        | Some i => Some (PStr (BASE ++ lit "/zone/events/" ++ i
                                ++ lit "/participants_list"))
        | None => None
        end
    end.
Proof.
  intros E.
  destruct (extract_event_record _ _ _ _ E)
    as (_ & _ & _ & _ & _ & info & part & enlaces & _ & Hpart & Hen & _ & Hp).
  exists enlaces. split; [exact Hen|].
  rewrite participants_href_first in Hpart.
  destruct (List.find participants_anchor (descendants c)) as [a|] eqn:Hf.
  - apply find_some in Hf as (_ & Ha). unfold participants_anchor in Ha.
    apply andb_true_iff in Ha as (_ & Ha). unfold href_is in Ha.
    cbn [option_map resolved] in Hpart.
    destruct (tag_get (lit "href") a) as [h|]; [|discriminate].
    cbn [default from_option] in Hpart. unfold id in Hpart.
    destruct (urljoin BASE h) as [u|e] eqn:Hu; [|discriminate].
    cbn [and_then] in Hpart. injection Hpart as <-.
    exists h, u. split; [reflexivity|]. split; [exact Hu|]. exact Hp.
  - cbn [option_map resolved] in Hpart. injection Hpart as <-.
    rewrite Hp. unfold participants_of, canonical_participants.
    destruct (id_rule c); reflexivity.
Qed.

Lemma participants_link_first_anchor_witness :
  exists ev,
    extract_event Sample.nfkc_ascii Sample.urljoin_path Sample.listed_card = Ok ev /\
    exists enlaces,
      dict_get (lit "enlaces") ev = Some (PDict enlaces) /\
      match List.find participants_anchor (descendants Sample.listed_card) with
      | Some a =>
        exists h u,
          tag_get (lit "href") a = Some h /\ Sample.urljoin_path BASE h = Ok u /\
          dict_get (lit "participantes") enlaces = Some (PStr u)
      | None =>
        dict_get (lit "participantes") enlaces =
          match id_rule Sample.listed_card with
          | Some i => Some (PStr (BASE ++ lit "/zone/events/" ++ i
                                  ++ lit "/participants_list"))
          | None => None
          end
      end.
Proof.
  eexists. split; [vm_compute; reflexivity|].
  apply (participants_link_first_anchor Sample.nfkc_ascii Sample.urljoin_path
           Sample.listed_card).
  vm_compute. reflexivity.
Defined.

(** X9.  The status of a past event.  A record of
    [extract_event_details] always has [estado], [estado_tipo] and
    [tipo]; [tipo] is [pasado]; [estado_tipo] is [finalizado] or
    [desconocido], and it is [desconocido] exactly when a status node is
    there and its text holds neither [Finalizado] nor [Completado]. *)
Theorem status_kind
    (urljoin : str -> str -> result str) (soup : node) (ev : dict) :
  extract_event_details urljoin soup = Ok ev ->
  dict_get (lit "tipo") ev = Some (PStr (lit "pasado")) /\
  (exists estado, dict_get (lit "estado") ev = Some (PStr estado)) /\
  (dict_get (lit "estado_tipo") ev = Some (PStr (lit "finalizado")) \/
   dict_get (lit "estado_tipo") ev = Some (PStr (lit "desconocido"))) /\
  (dict_get (lit "estado_tipo") ev = Some (PStr (lit "desconocido")) <->
   exists status_button,
     find (lit "div") STATUS_CLASS soup = Some status_button /\
     contains (lit "Finalizado") (get_text_strip status_button) = false /\
     contains (lit "Completado") (get_text_strip status_button) = false).
Proof.
  intros E.
  destruct (extract_event_details_fields _ _ _ E) as (_ & _ & Hst & Hkind & Htipo).
  split; [exact Htipo|]. split; [eauto|].
  rewrite Hkind.
  destruct (find (lit "div") STATUS_CLASS soup) as [b|].
  - destruct (contains (lit "Finalizado") (get_text_strip b)) eqn:H1;
      [|destruct (contains (lit "Completado") (get_text_strip b)) eqn:H2];
      cbn [orb].
    + split; [left; reflexivity|]. split; [discriminate|].
      intros (b' & Hb & Hf & _). injection Hb as <-. congruence.
    + split; [left; reflexivity|]. split; [discriminate|].
      intros (b' & Hb & _ & Hc). injection Hb as <-. congruence.
    + split; [right; reflexivity|]. split; [|reflexivity].
      intros _. exists b. auto.
  - split; [left; reflexivity|]. split; [discriminate|].
    intros (b' & Hb & _). discriminate.
Qed.

Lemma status_kind_witness :
  exists ev,
    extract_event_details Sample.urljoin_path (document [Sample.listed_card]) = Ok ev /\
    dict_get (lit "tipo") ev = Some (PStr (lit "pasado")) /\
    (exists estado, dict_get (lit "estado") ev = Some (PStr estado)) /\
    (dict_get (lit "estado_tipo") ev = Some (PStr (lit "finalizado")) \/
     dict_get (lit "estado_tipo") ev = Some (PStr (lit "desconocido"))) /\
    (dict_get (lit "estado_tipo") ev = Some (PStr (lit "desconocido")) <->
     exists status_button,
       find (lit "div") STATUS_CLASS (document [Sample.listed_card])
         = Some status_button /\
       contains (lit "Finalizado") (get_text_strip status_button) = false /\
       contains (lit "Completado") (get_text_strip status_button) = false).
Proof.
  eexists. split; [vm_compute; reflexivity|].
  apply (status_kind Sample.urljoin_path (document [Sample.listed_card])).
  vm_compute. reflexivity.
Defined.

(** X10.  The info block of a past event.  [extract_event_details] looks
    for dates, organiser, name, club and place inside the info block only:
    without the block none of the five fields is set, whatever else the
    container holds.  With the block, [fechas] and [organizacion] are the
    stripped texts of its first and second [div] of class [text-xs], and a
    [lugar] that is set is one of those texts, holds a slash and names
    [Spain] or [España]. *)
Theorem info_block_fields
    (urljoin : str -> str -> result str) (soup : node) (ev : dict) :
  extract_event_details urljoin soup = Ok ev ->
  match find (lit "div") INFO_CLASS soup with
  | None =>
    dict_get (lit "fechas") ev = None /\
    dict_get (lit "organizacion") ev = None /\
    dict_get (lit "nombre") ev = None /\
    dict_get (lit "club") ev = None /\
    dict_get (lit "lugar") ev = None
  | Some info_div =>
    let texts :=
      List.map get_text_strip (find_all (lit "div") (lit "text-xs") info_div) in
    dict_get (lit "fechas") ev = option_map PStr (nth_error texts 0) /\
    dict_get (lit "organizacion") ev = option_map PStr (nth_error texts 1) /\
    forall v, dict_get (lit "lugar") ev = Some v ->
      exists t, v = PStr t /\ In t texts /\ contains (lit "/") t = true /\
        (contains (lit "Spain") t = true \/ contains (lit "España") t = true)
  end.
Proof.
  intros E.
  destruct (extract_event_details_record _ _ _ E) as (H1 & H2 & H3 & H4 & _).
  destruct (extract_event_details_fields _ _ _ E) as (_ & Hn & _).
  unfold in_info_block, small_strips in *.
  destruct (find (lit "div") INFO_CLASS soup) as [info_div|].
  - cbv zeta. split; [exact H1|]. split; [exact H2|].
    intros v Hv. rewrite H4 in Hv.
    match type of Hv with
    | option_map _ ?f = _ => destruct f as [t|] eqn:Hf; [|discriminate]
    end.
    injection Hv as <-. exists t. split; [reflexivity|].
    apply find_some in Hf as (Hin & Hp).
    apply andb_true_iff in Hp as (Hs & Hw). apply orb_true_iff in Hw. auto.
  - auto 6.
Qed.

Lemma info_block_fields_witness :
  exists ev,
    extract_event_details Sample.urljoin_path (document [Sample.loose_card]) = Ok ev /\
    dict_get (lit "fechas") ev = None /\
    dict_get (lit "organizacion") ev = None /\
    dict_get (lit "nombre") ev = None /\
    dict_get (lit "club") ev = None /\
    dict_get (lit "lugar") ev = None.
Proof.
  eexists. split; [vm_compute; reflexivity|].
  apply (info_block_fields Sample.urljoin_path (document [Sample.loose_card])).
  vm_compute. reflexivity.
Defined.

(** X11.  The links of a past event are the links found.  Under [enlaces],
    a record of [extract_event_details] has [info], [participantes] and
    [runs] exactly for the anchors found with [/info/],
    [/participants_list] and [/runs] in their href, each resolved against
    the base; no participants link is built from the id, unlike in
    [extract_events]. *)
Theorem past_links_as_found
    (urljoin : str -> str -> result str) (soup : node) (ev : dict) :
  extract_event_details urljoin soup = Ok ev ->
  exists enlaces,
    dict_get (lit "enlaces") ev = Some (PDict enlaces) /\
    forall key fragment,
      In (key, fragment) [(lit "info", lit "/info/");
                          (lit "participantes", lit "/participants_list");
                          (lit "runs", lit "/runs")] ->
      match href_of (contains fragment) soup with
      | Some h => exists u, urljoin BASE h = Ok u /\
                            dict_get key enlaces = Some (PStr u)
      | None => dict_get key enlaces = None
      end.
Proof.
  intros E.
  destruct (extract_event_details_record _ _ _ E)
    as (_ & _ & _ & _ & _ & info & part & runs & enlaces
        & Hi & Hp & Hr & Hen & Gi & Gp & Gr).
  exists enlaces. split; [exact Hen|].
  assert (Hone : forall frag key v,
            resolved urljoin (href_of (contains frag) soup) = Ok v ->
            dict_get key enlaces = option_map PStr v ->
            match href_of (contains frag) soup with
            | Some h => exists u, urljoin BASE h = Ok u /\
                                  dict_get key enlaces = Some (PStr u)
            | None => dict_get key enlaces = None
            end).
  { intros frag key v Hres Hget.
    destruct (href_of (contains frag) soup) as [h|]; cbn [resolved] in Hres.
    - destruct (urljoin BASE h) as [u|e] eqn:Hu; [|discriminate].
      cbn [and_then] in Hres. injection Hres as <-. exists u. auto.
    - injection Hres as <-. exact Hget. }
  intros key fragment [H | [H | [H | []]]]; injection H as <- <-.
  - apply (Hone _ _ _ Hi Gi).
  - apply (Hone _ _ _ Hp Gp).
  - apply (Hone _ _ _ Hr Gr).
Qed.

Lemma past_links_as_found_witness :
  exists ev,
    extract_event_details Sample.urljoin_path (document [Sample.loose_card]) = Ok ev /\
    exists enlaces,
      dict_get (lit "enlaces") ev = Some (PDict enlaces) /\
      forall key fragment,
        In (key, fragment) [(lit "info", lit "/info/");
                            (lit "participantes", lit "/participants_list");
                            (lit "runs", lit "/runs")] ->
        match href_of (contains fragment) (document [Sample.loose_card]) with
        | Some h => exists u, Sample.urljoin_path BASE h = Ok u /\
                              dict_get key enlaces = Some (PStr u)
        | None => dict_get key enlaces = None
        end.
Proof.
  eexists. split; [vm_compute; reflexivity|].
  apply (past_links_as_found Sample.urljoin_path (document [Sample.loose_card])).
  vm_compute. reflexivity.
Defined.

(* ===================================================================== *)
(** ** Further properties: snapshots and uploads *)
(* ===================================================================== *)

Module SnapshotFacts.

(** The command [_upload_stream] runs at a reading [t] of the clock, and
    the command [_upload_snapshot] runs for a snapshot. *)
Definition stream_upload (s : streamer) (t : struct_time) : list str :=
  [lit "bash"; uploader s; stream_file s;
   lit "events_stream_" ++ strftime_day t ++ lit ".jsonl"].

Definition snapshot_upload (s : streamer) (snap_path : str) : list str :=
  [lit "bash"; uploader s; snap_path; path_name snap_path].

(** The uploads started when the uploader script is there. *)
Definition when_there {A} (present : option str) (l : list A) : list A :=
  match present with Some _ => l | None => [] end.

(** The numbers of the appends of a run, counted from 1, that complete a
    group: a run of [n] appends on a streamer that has counted [c]. *)
Definition completing (c k : Z) (n : nat) : list nat :=
  List.filter (fun j => ((c + Z.of_nat j) mod k =? 0)%Z) (seq 1 n).

Section Facts.

Variable localtime : nat -> struct_time.
Variable subprocess_run : nat -> list str -> run_outcome.
Variable gzip_compress : str -> str.

Abbreviation _safe_run := (_safe_run subprocess_run).
Abbreviation _upload_stream := (_upload_stream localtime subprocess_run).
Abbreviation _upload_snapshot := (_upload_snapshot subprocess_run).
Abbreviation _make_snapshot := (_make_snapshot localtime gzip_compress).
Abbreviation add := (add localtime subprocess_run gzip_compress).
Abbreviation add_all := (add_all localtime subprocess_run gzip_compress).
Abbreviation finish := (finish localtime subprocess_run gzip_compress).
Abbreviation snapshot_path := (snapshot_path localtime).

Lemma runs_of_run t c lines :
  runs_of (t ++ IoRun c :: List.map IoPrint lines) = runs_of t ++ [c].
Proof.
  rewrite runs_of_app. cbn [runs_of flat_map app].
  replace (flat_map _ (List.map IoPrint lines)) with (@nil (list str)).
  - reflexivity.
  - induction lines; cbn; auto.
Qed.

Lemma upload_stream_exact s w :
  exists w',
    _upload_stream (s, w) = (Ok tt, (s, w')) /\
    fs w' = fs w /\
    snapshots_of (trace w') = snapshots_of (trace w) /\
    runs_of (trace w') =
      runs_of (trace w)
      ++ when_there (fs w !! uploader s) [stream_upload s (localtime (epoch w))] /\
    epoch w' = match fs w !! uploader s with
               | Some _ => S (S (epoch w))
               | None => epoch w
               end.
Proof.
  unfold Stream._upload_stream, bind, self, gets, io, path_exists. cbn.
  destruct (fs w !! uploader s) as [u|] eqn:Hu; cbn.
  - destruct (safe_run_total subprocess_run
                (stream_upload s (localtime (epoch w)))
                (World (fs w) (S (epoch w)) (trace w)))
      as (rc & w' & E & Hfs & Hep & lines & Ht).
    unfold stream_upload in E. rewrite E. cbn. exists w'.
    split; [reflexivity|]. rewrite Hfs, Ht. cbn [fs trace].
    split; [reflexivity|]. split; [apply snapshots_of_quiet|].
    split; [apply runs_of_run|exact Hep].
  - exists w. destruct w; cbn. rewrite app_nil_r. repeat split.
Qed.

Lemma upload_snapshot_exact s w p :
  exists w',
    _upload_snapshot p (s, w) = (Ok tt, (s, w')) /\
    fs w' = fs w /\
    snapshots_of (trace w') = snapshots_of (trace w) /\
    runs_of (trace w') =
      runs_of (trace w) ++ when_there (fs w !! uploader s) [snapshot_upload s p].
Proof.
  unfold Stream._upload_snapshot, bind, self, gets, io, path_exists. cbn.
  destruct (fs w !! uploader s) as [u|] eqn:Hu; cbn.
  - destruct (safe_run_total subprocess_run (snapshot_upload s p) w)
      as (rc & w' & E & Hfs & _ & lines & Ht).
    unfold snapshot_upload in E. rewrite E. cbn. exists w'.
    split; [reflexivity|]. rewrite Hfs, Ht.
    split; [reflexivity|]. split; [apply snapshots_of_quiet|apply runs_of_run].
  - exists w. destruct w; cbn. rewrite app_nil_r. repeat split.
Qed.

(** One append, step by step: the world [w2] is the one in which the
    snapshot is decided on, after the append and the upload of the log. *)
Lemma add_steps s w ev :
  snapshot_every s <> 0%Z ->
  exists w2 w',
    add ev (s, w) = (Ok tt, (bumped s, w')) /\
    fs w2 = <[stream_file s := log_of s w ++ line_of ev]> (fs w) /\
    snapshots_of (trace w2) = snapshots_of (trace w) /\
    runs_of (trace w2) =
      runs_of (trace w)
      ++ when_there (fs w2 !! uploader s) [stream_upload s (localtime (epoch w))] /\
    epoch w2 = match fs w2 !! uploader s with
               | Some _ => S (S (epoch w))
               | None => epoch w
               end /\
    if due s then
      exists payload,
        fs w' = <[snapshot_path s w2 := gzip_compress payload]> (fs w2) /\
        (stream_file s <> snapshot_path s w2 ->
           payload = log_of s w ++ line_of ev) /\
        snapshots_of (trace w') =
          snapshots_of (trace w2) ++ [(snapshot_path s w2, payload)] /\
        runs_of (trace w') =
          runs_of (trace w2)
          ++ when_there (fs w' !! uploader s)
               [snapshot_upload s (snapshot_path s w2)]
    else w' = w2.
Proof.
  intros Hse.
  unfold Stream.add, bind at 1. unfold self at 1, gets. cbn [fst snd].
  unfold bind at 1. unfold io at 1, file_append, modify. cbn [fst snd].
  unfold bind at 1. unfold set_count at 1, modify. cbn [fst snd].
  fold (bumped s). fold (line_of ev).
  set (w1 := World (<[stream_file s := default [] (fs w !! stream_file s) ++ line_of ev]> (fs w))
                   (epoch w) (trace w ++ [IoAppend (stream_file s) (line_of ev)])).
  unfold bind at 1.
  destruct (upload_stream_exact (bumped s) w1)
    as (w2 & E2 & Hfs2 & Hsn2 & Hrun2 & Hep2).
  rewrite E2.
  unfold bind at 1. unfold self at 1, gets. cbn [fst snd].
  unfold bind at 1. unfold lift, py_mod. cbn [snapshot_every bumped count].
  destruct (snapshot_every s =? 0)%Z eqn:Hz; [apply Z.eqb_eq in Hz; contradiction|].
  assert (Hfs2' : fs w2 = <[stream_file s := log_of s w ++ line_of ev]> (fs w))
    by (rewrite Hfs2; reflexivity).
  assert (Hlog2 : fs w2 !! stream_file s = Some (log_of s w ++ line_of ev))
    by (rewrite Hfs2'; apply lookup_insert_eq).
  assert (Hsn1 : snapshots_of (trace w2) = snapshots_of (trace w)).
  { rewrite Hsn2. subst w1. cbn. rewrite snapshots_of_app. cbn. apply app_nil_r. }
  assert (Hrun1 : runs_of (trace w2) =
                  runs_of (trace w)
                  ++ when_there (fs w2 !! uploader s)
                       [stream_upload s (localtime (epoch w))]).
  { rewrite Hrun2, Hfs2. subst w1. cbn [trace fs epoch].
    rewrite runs_of_app. cbn [runs_of flat_map]. rewrite app_nil_r. reflexivity. }
  assert (Hep1 : epoch w2 = match fs w2 !! uploader s with
                            | Some _ => S (S (epoch w))
                            | None => epoch w
                            end).
  { rewrite Hep2, Hfs2. reflexivity. }
  unfold due.
  destruct ((count s + 1) mod snapshot_every s =? 0)%Z eqn:Hdue.
  - destruct (make_snapshot_spec localtime gzip_compress (bumped s) w2 _ Hlog2)
      as (w3 & payload & E3 & Hfs3 & Ht3 & Hpay).
    unfold bind at 1. rewrite E3.
    destruct (upload_snapshot_exact (bumped s) w3 (snapshot_path (bumped s) w2))
      as (w4 & E4 & Hfs4 & Hsn4 & Hrun4).
    rewrite E4. exists w2, w4. split; [reflexivity|].
    split; [exact Hfs2'|]. split; [exact Hsn1|]. split; [exact Hrun1|].
    split; [exact Hep1|].
    exists payload. change (snapshot_path (bumped s) w2) with (snapshot_path s w2) in *.
    split; [rewrite Hfs4; exact Hfs3|]. split; [exact Hpay|]. split.
    + rewrite Hsn4, Ht3, snapshots_of_app. reflexivity.
    + rewrite Hrun4, Hfs4, Ht3, runs_of_app. cbn [runs_of flat_map].
      rewrite app_nil_r. reflexivity.
  - exists w2, w2. split; [reflexivity|]. auto 6.
Qed.

Lemma make_snapshot_total s w :
  exists r w', _make_snapshot (s, w) = (r, (s, w')).
Proof.
  unfold Stream._make_snapshot, bind, self, gets, io, _ts_full, clock,
    gzip_open, gzip_write, file_read, modify, ret. cbn.
  match goal with |- context [?m !! stream_file s] => destruct (m !! stream_file s) end;
    cbn; eauto.
Qed.

(** [finish] returns, whatever the files are. *)
Lemma finish_total s w : exists w', finish (s, w) = (Ok tt, (s, w')).
Proof.
  unfold Stream.finish, try_except, bind.
  destruct (make_snapshot_total s w) as (r & w1 & E). rewrite E.
  destruct r as [p|e].
  - destruct (upload_snapshot_exact s w1 p) as (w2 & E2 & _). rewrite E2. eauto.
  - unfold io, print, emit, modify. cbn. eauto.
Qed.

(** [finish] on a log that is there: one snapshot, of the whole log. *)
Lemma finish_there s w data :
  fs w !! stream_file s = Some data ->
  exists w' payload,
    finish (s, w) = (Ok tt, (s, w')) /\
    fs w' = <[snapshot_path s w := gzip_compress payload]> (fs w) /\
    (stream_file s <> snapshot_path s w -> payload = data) /\
    snapshots_of (trace w') =
      snapshots_of (trace w) ++ [(snapshot_path s w, payload)].
Proof.
  intros Hdata. unfold Stream.finish, try_except, bind.
  destruct (make_snapshot_spec localtime gzip_compress s w data Hdata)
    as (w1 & payload & E1 & Hfs1 & Ht1 & Hpay).
  rewrite E1.
  destruct (upload_snapshot_exact s w1 (snapshot_path s w))
    as (w2 & E2 & Hfs2 & Hsn2 & _).
  rewrite E2. exists w2, payload. split; [reflexivity|].
  split; [rewrite Hfs2; exact Hfs1|]. split; [exact Hpay|].
  rewrite Hsn2, Ht1, snapshots_of_app. reflexivity.
Qed.

(** [finish] on a log that is not there: the archive was opened before the
    log was, and stays behind, empty. *)
Lemma finish_missing s w :
  fs w !! stream_file s = None ->
  stream_file s <> snapshot_path s w ->
  exists w' line,
    finish (s, w) = (Ok tt, (s, w')) /\
    fs w' = <[snapshot_path s w := gzip_compress []]> (fs w) /\
    snapshots_of (trace w') = snapshots_of (trace w) /\
    runs_of (trace w') = runs_of (trace w) /\
    printed (trace w') = printed (trace w) ++ [line].
Proof.
  intros Hdata Hne. unfold Stream.finish, try_except, bind at 1.
  unfold Stream._make_snapshot, bind, self, gets, io, _ts_full, clock,
    gzip_open, gzip_write, file_read, modify, ret, print, emit. cbn.
  fold (snapshot_path s w).
  rewrite lookup_insert_ne by congruence. rewrite Hdata. cbn.
  eexists _, _. split; [reflexivity|]. cbn.
  rewrite snapshots_of_app, runs_of_app, printed_app. cbn.
  rewrite !app_nil_r. repeat split.
Qed.

(** *** A run of appends *)

Lemma completing_succ c k n :
  completing c k (S n) =
    (if ((c + 1) mod k =? 0)%Z then [1] else [])
    ++ List.map S (completing (c + 1) k n).
Proof.
  unfold completing. rewrite <- cons_seq, <- seq_shift. cbn [List.filter].
  replace (c + Z.of_nat 1)%Z with (c + 1)%Z by lia.
  assert (H : forall l,
            List.filter (fun j => ((c + Z.of_nat j) mod k =? 0)%Z) (List.map S l)
            = List.map S
                (List.filter (fun j => ((c + 1 + Z.of_nat j) mod k =? 0)%Z) l)).
  { induction l as [|j l IH]; [reflexivity|]. cbn [List.map List.filter].
    replace (c + Z.of_nat (S j))%Z with (c + 1 + Z.of_nat j)%Z by lia.
    destruct ((c + 1 + Z.of_nat j) mod k =? 0)%Z; cbn [List.map]; rewrite IH;
      reflexivity. }
  rewrite H. destruct ((c + 1) mod k =? 0)%Z; reflexivity.
Qed.

(** The lines of the first [j] records of a run. *)
Definition lines_upto (events : list dict) (j : nat) : str :=
  concat (List.map line_of (firstn j events)).

(** A snapshot lies in the directory of the streamer and is named after a
    reading of the clock. *)
Definition stamped (s : streamer) (p : str) : Prop :=
  exists e, p = path_join (out_dir s) (snapshot_name (strftime_full (localtime e))).

Lemma add_all_steps events : forall s w,
  (0 < snapshot_every s)%Z ->
  well_placed s ->
  exists w' made,
    add_all events (s, w) = (Ok tt, (advanced s (length events), w')) /\
    snapshots_of (trace w') = snapshots_of (trace w) ++ made /\
    List.map snd made =
      List.map (fun j => log_of s w ++ lines_upto events j)
               (completing (count s) (snapshot_every s) (length events)) /\
    Forall (fun x => stamped s (fst x)) made /\
    log_of s w' = log_of s w ++ concat (List.map line_of events).
Proof.
  induction events as [|ev rest IH]; intros s w Hk Hwp.
  - exists w, []. cbn. rewrite advanced_0, !app_nil_r. repeat split. constructor.
  - destruct (add_steps s w ev ltac:(lia))
      as (w2 & w1 & E1 & Hfs2 & Hsn2 & _ & _ & Hdue).
    destruct (well_placed_snapshot localtime s w2 Hwp) as (Hsp & _).
    assert (Hlog1 : log_of s w1 = log_of s w ++ line_of ev /\
                    exists new,
                      snapshots_of (trace w1) = snapshots_of (trace w) ++ new /\
                      List.map snd new =
                        (if due s then [log_of s w ++ line_of ev] else []) /\
                      Forall (fun x => stamped s (fst x)) new).
    { destruct (due s).
      - destruct Hdue as (payload & Hfs1 & Hpay & Hsn1 & _). split.
        + unfold log_of. rewrite Hfs1, lookup_insert_ne by exact Hsp.
          rewrite Hfs2, lookup_insert_eq. reflexivity.
        + exists [(snapshot_path s w2, payload)]. rewrite Hsn1, Hsn2.
          split; [reflexivity|]. split.
          * cbn. rewrite Hpay; [reflexivity|]. congruence.
          * constructor; [|constructor]. exists (epoch w2). reflexivity.
      - subst w1. split.
        + unfold log_of. rewrite Hfs2, lookup_insert_eq. reflexivity.
        + exists []. rewrite app_nil_r. repeat split; [exact Hsn2|constructor]. }
    destruct Hlog1 as (Hlog1 & new & Hnew & Hpay & Hst).
    destruct (IH (bumped s) w1 Hk Hwp) as (w' & made & E & Hsn & Hmade & Hstamped & Hlog).
    exists w', (new ++ made). split; [|split; [|split; [|split]]].
    + cbn [Stream.add_all]. unfold bind at 1, try_except. rewrite E1.
      rewrite E, advanced_S. reflexivity.
    + rewrite Hsn, Hnew, app_assoc. reflexivity.
    + rewrite List.map_app, Hpay, Hmade. cbn [length].
      rewrite completing_succ, List.map_app, List.map_map.
      cbn [bumped count snapshot_every]. unfold due. f_equal.
      * destruct ((count s + 1) mod snapshot_every s =? 0)%Z; [|reflexivity].
        cbn. unfold lines_upto. cbn. rewrite app_nil_r. reflexivity.
      * apply List.map_ext. intros j.
        change (log_of (bumped s) w1) with (log_of s w1). rewrite Hlog1.
        unfold lines_upto. cbn [firstn List.map concat].
        rewrite <- app_assoc. reflexivity.
    + apply Forall_app. split; [exact Hst|exact Hstamped].
    + change (log_of (bumped s) w') with (log_of s w') in Hlog.
      change (log_of (bumped s) w1) with (log_of s w1) in Hlog.
      rewrite Hlog, Hlog1. cbn [List.map concat]. rewrite <- app_assoc. reflexivity.
Qed.


(** A run of appends and the [finish] that follows, on a log that is
    there. *)
Lemma run_and_finish events s w :
  (0 < snapshot_every s)%Z ->
  well_placed s ->
  is_Some (fs w !! stream_file s) ->
  exists w1 made w2 final,
    add_all events (s, w) = (Ok tt, (advanced s (length events), w1)) /\
    snapshots_of (trace w1) = snapshots_of (trace w) ++ made /\
    List.map snd made =
      List.map (fun j => log_of s w ++ lines_upto events j)
               (completing (count s) (snapshot_every s) (length events)) /\
    Forall (fun x => stamped s (fst x)) (made ++ [final]) /\
    log_of s w1 = log_of s w ++ concat (List.map line_of events) /\
    finish (advanced s (length events), w1)
      = (Ok tt, (advanced s (length events), w2)) /\
    snapshots_of (trace w2) = snapshots_of (trace w1) ++ [final] /\
    snd final = log_of s w1 /\
    fs w2 !! fst final = Some (gzip_compress (log_of s w1)).
Proof.
  intros Hk Hwp Hsome.
  destruct (add_all_steps events s w Hk Hwp)
    as (w1 & made & E1 & Hsn & Hmade & Hst & Hlog).
  assert (Hthere : fs w1 !! stream_file s = Some (log_of s w1)).
  { destruct (add_all_spec localtime subprocess_run gzip_compress events s w Hk)
      as (w1' & E1' & _ & Hkeep & _).
    rewrite E1 in E1'. injection E1' as <-.
    destruct (Hkeep Hsome) as [data Hdata].
    unfold log_of. rewrite Hdata. reflexivity. }
  destruct (finish_there (advanced s (length events)) w1 _ Hthere)
    as (w2 & payload & E2 & Hfs2 & Hpay & Hsn2).
  destruct (well_placed_snapshot localtime s w1 Hwp) as (Hsp & _).
  change (snapshot_path (advanced s (length events)) w1)
    with (snapshot_path s w1) in *.
  change (stream_file (advanced s (length events))) with (stream_file s) in *.
  exists w1, made, w2, (snapshot_path s w1, payload).
  split; [exact E1|]. split; [exact Hsn|]. split; [exact Hmade|]. split.
  { apply Forall_app. split; [exact Hst|].
    constructor; [|constructor]. exists (epoch w1). reflexivity. }
  split; [exact Hlog|]. split; [exact E2|]. split; [exact Hsn2|].
  assert (Hp : payload = log_of s w1) by (apply Hpay; congruence).
  split; [exact Hp|]. cbn [fst]. rewrite Hfs2, lookup_insert_eq, Hp. reflexivity.
Qed.

(** *** Names of snapshots *)








End Facts.

End SnapshotFacts.

Import SnapshotFacts.



(** X13.  Snapshots of the same second share one file.  The name of a
    snapshot is the time of its making, to the second.  On the streamer
    the program builds, when every reading of the clock during a run gives
    the same second, all snapshots of the run, the one of [finish]
    included, are written to one path: each replaces the one before, and
    what is left in that file is the last snapshot. *)
Theorem same_second_snapshots
    (localtime : nat -> struct_time)
    (subprocess_run : nat -> list str -> run_outcome)
    (gzip_compress : str -> str)
    (t : struct_time)
    (strict : bool) (dir : str) (k : Z)
    (w0 : world) (s : streamer) (w : world) (events : list dict) :
  (forall n, localtime n = t) ->
  Stream.__init__ strict dir (STREAM_FILE dir) k w0 = (Ok s, w) ->
  exists s1 w1 made w2 final,
    add_all localtime subprocess_run gzip_compress events (s, w)
      = (Ok tt, (s1, w1)) /\
    snapshots_of (trace w1) = snapshots_of (trace w) ++ made /\
    finish localtime subprocess_run gzip_compress (s1, w1) = (Ok tt, (s1, w2)) /\
    snapshots_of (trace w2) = snapshots_of (trace w1) ++ [final] /\
    Forall (fun x => fst x = path_join dir (snapshot_name (strftime_full t)))
           (made ++ [final]) /\
    fs w2 !! path_join dir (snapshot_name (strftime_full t))
      = Some (gzip_compress (log_of s1 w1)).
Proof.
  intros Hclock Hinit.
  destruct (init_ok _ _ _ _ _ _ _ Hinit) as (-> & Hfs & _ & _).
  destruct (run_and_finish localtime subprocess_run gzip_compress events
              (fresh dir (STREAM_FILE dir) k) w)
    as (w1 & made & w2 & final & E1 & Hsn & _ & Hst & _ & E2 & Hsn2 & _ & Hleft).
  { unfold fresh. cbn [snapshot_every]. lia. }
  { apply well_placed_default. }
  { rewrite Hfs. unfold fresh. cbn [stream_file]. rewrite fs_init_log. eauto. }
  assert (Hpaths : Forall (fun x => fst x = path_join dir
                                     (snapshot_name (strftime_full t)))
                          (made ++ [final])).
  { eapply Forall_impl; [exact Hst|]. intros x (e & ->).
    rewrite Hclock. reflexivity. }
  exists (advanced (fresh dir (STREAM_FILE dir) k) (length events)), w1, made, w2, final.
  split; [exact E1|]. split; [exact Hsn|]. split; [exact E2|].
  split; [exact Hsn2|]. split; [exact Hpaths|].
  apply Forall_app in Hpaths as (_ & Hfinal).
  apply Forall_cons in Hfinal as (Hfinal & _). rewrite <- Hfinal. exact Hleft.
Qed.

Lemma same_second_snapshots_witness :
  exists s w s1 w1 made w2 final,
    Stream.__init__ false (lit "output") (STREAM_FILE (lit "output")) 1
      Sample.empty_world = (Ok s, w) /\
    add_all Sample.frozen Sample.failing_upload Sample.gzip_stored
      [Sample.sample_event; Sample.sample_event] (s, w) = (Ok tt, (s1, w1)) /\
    snapshots_of (trace w1) = snapshots_of (trace w) ++ made /\
    finish Sample.frozen Sample.failing_upload Sample.gzip_stored (s1, w1)
      = (Ok tt, (s1, w2)) /\
    snapshots_of (trace w2) = snapshots_of (trace w1) ++ [final] /\
    Forall (fun x => fst x = path_join (lit "output")
                              (snapshot_name (strftime_full (Sample.frozen 0))))
           (made ++ [final]) /\
    fs w2 !! path_join (lit "output") (snapshot_name (strftime_full (Sample.frozen 0)))
      = Some (Sample.gzip_stored (log_of s1 w1)).
Proof.
  eexists _, _.
  assert (Hinit : Stream.__init__ false (lit "output") (STREAM_FILE (lit "output")) 1
                    Sample.empty_world
                  = (Ok (fresh (lit "output") (STREAM_FILE (lit "output")) 1),
                     snd (Stream.__init__ false (lit "output")
                            (STREAM_FILE (lit "output")) 1 Sample.empty_world)))
    by (vm_compute; reflexivity).
  destruct (same_second_snapshots Sample.frozen Sample.failing_upload
              Sample.gzip_stored (Sample.frozen 0) false (lit "output") 1
              Sample.empty_world _ _ [Sample.sample_event; Sample.sample_event]
              (fun n => eq_refl) Hinit)
    as (s1 & w1 & made & w2 & final & H).
  exists s1, w1, made, w2, final. split; [exact Hinit|exact H].
Defined.



(** X15.  [finish] never raises.  Whatever the files are, [finish] returns
    and leaves the streamer as it was.  When the log is missing, the
    archive has been opened before the log is: an empty snapshot file
    stays behind, a warning is printed, no snapshot is recorded and no
    child process is started. *)
Theorem finish_never_raises
    (localtime : nat -> struct_time)
    (subprocess_run : nat -> list str -> run_outcome)
    (gzip_compress : str -> str)
    (s : streamer) (w : world) :
  (exists w', finish localtime subprocess_run gzip_compress (s, w)
              = (Ok tt, (s, w'))) /\
  (fs w !! stream_file s = None ->
   stream_file s <> snapshot_path localtime s w ->
   exists w' line,
     finish localtime subprocess_run gzip_compress (s, w) = (Ok tt, (s, w')) /\
     fs w' = <[snapshot_path localtime s w := gzip_compress []]> (fs w) /\
     snapshots_of (trace w') = snapshots_of (trace w) /\
     runs_of (trace w') = runs_of (trace w) /\
     printed (trace w') = printed (trace w) ++ [line]).
Proof.
  split; [apply finish_total|apply finish_missing].
Qed.

(* ===================================================================== *)
(** ** Further properties: the loop over the containers *)
(* ===================================================================== *)

Module HarvestFacts.

Section Facts.

Variable localtime : nat -> struct_time.
Variable subprocess_run : nat -> list str -> run_outcome.
Variable gzip_compress : str -> str.
Variable nfkc : str -> str.
Variable urljoin : str -> str -> result str.




End Facts.

End HarvestFacts.



(* ===================================================================== *)
(** ** Further properties: the session of the past-events harvester *)
(* ===================================================================== *)

Module SessionFacts.

(** What a step adds to the calls made so far, together with its result,
    satisfies [Q]. *)
Definition does {B A} (Q : result A -> list call -> Prop)
    (m : M (B * list call) A) : Prop :=
  forall s, exists added, snd (snd (m s)) = snd s ++ added /\ Q (fst (m s)) added.

(** The values a step returns, when it returns, are in [R]. *)
Definition yields {B A} (R : A -> Prop) (m : M (B * list call) A) : Prop :=
  forall s a s', m s = (Ok a, s') -> R a.

(** A step that never returns: it raises. *)
Definition never_ok {B A} (m : M (B * list call) A) : Prop :=
  forall s, exists e s', m s = (Raise e, s').

(** A site that stays on the login page: every address read holds
    [/user/login]. *)
Definition stays_at_login {B} (driver : WebDriver B) : Prop :=
  forall b url b',
    drv_current_url driver b = (Ok url, b') -> contains LOGIN_PATH url = true.

Lemma logins_started_app t1 t2 :
  logins_started (t1 ++ t2) = logins_started t1 + logins_started t2.
Proof. unfold logins_started. rewrite List.filter_app, length_app. reflexivity. Qed.

Definition no_get (c : call) : Prop :=
  match c with CallGet _ => False | _ => True end.

Lemma no_get_count t : Forall no_get t -> logins_started t = 0.
Proof.
  induction 1 as [|c t Hc _ IH]; [reflexivity|].
  unfold logins_started in *. cbn. destruct c; try exact IH. contradiction.
Qed.

Section Steps.

Context {B : Type}.
Variable driver : WebDriver B.

Lemma does_of_adds {A} (Q : list call -> Prop) (m : Sel (B := B) A) :
  adds Q m -> does (fun _ t => Q t) m.
Proof. intros H s. exact (H s). Qed.

Lemma does_ret {A} (Q : result A -> list call -> Prop) (a : A) :
  Q (Ok a) [] -> does Q (ret (S := B * list call) a).
Proof. intros HQ s. exists []. rewrite app_nil_r. split; [reflexivity|exact HQ]. Qed.

Lemma does_bind {A A'} (Q1 : result A -> list call -> Prop)
    (Q2 Q : result A' -> list call -> Prop)
    (m : Sel (B := B) A) (k : A -> Sel (B := B) A') :
  does Q1 m -> (forall a, does Q2 (k a)) ->
  (forall e t, Q1 (Raise e) t -> Q (Raise e) t) ->
  (forall a t1 r t2, Q1 (Ok a) t1 -> Q2 r t2 -> Q r (t1 ++ t2)) ->
  does Q (bind m k).
Proof.
  intros Hm Hk Hraise Happ s. unfold bind.
  destruct (Hm s) as (t1 & E1 & H1).
  destruct (m s) as [[a|e] s1]; cbn [snd fst] in *.
  - destruct (Hk a s1) as (t2 & E2 & H2).
    exists (t1 ++ t2). rewrite E2, E1, app_assoc. split; [reflexivity|].
    eapply Happ; eassumption.
  - exists t1. split; [exact E1|auto].
Qed.

(** *** Steps that never return *)

Lemma never_ok_bind_l {A A'} (m : Sel (B := B) A) (k : A -> Sel (B := B) A') :
  never_ok m -> never_ok (bind m k).
Proof.
  intros Hm s. unfold bind. destruct (Hm s) as (e & s' & E). rewrite E. eauto.
Qed.

Lemma never_ok_bind_r {A A'} (m : Sel (B := B) A) (k : A -> Sel (B := B) A') :
  (forall a, never_ok (k a)) -> never_ok (bind m k).
Proof.
  intros Hk s. unfold bind. destruct (m s) as [[a|e] s']; [apply Hk|eauto].
Qed.

Lemma never_ok_until {A} polls (method : Sel (B := B) (option A)) :
  yields (fun v => v = None) method -> never_ok (until_polls driver polls method).
Proof.
  intros Hm. induction polls as [|p IH]; intros s; cbn [until_polls];
    destruct (method s) as [[[v|]|e] s1] eqn:E.
  - specialize (Hm _ _ _ E). discriminate.
  - eauto.
  - destruct (exn_class_of e); eauto.
  - specialize (Hm _ _ _ E). discriminate.
  - unfold bind, sleep, called. cbn. apply IH.
  - destruct (exn_class_of e); eauto.
    unfold bind, sleep, called. cbn. apply IH.
Qed.

Lemma login_page_seen :
  stays_at_login driver ->
  yields (fun v : option bool => v = None)
    (let! url := current_url driver in
     ret (if contains LOGIN_PATH url then None else Some true)).
Proof.
  intros Hstay s a s'. unfold bind, current_url, called.
  destruct (drv_current_url driver (fst s)) as [[url|e] b'] eqn:E; [|discriminate].
  unfold ret. intros H. injection H as <- _.
  rewrite (Hstay _ _ _ E). reflexivity.
Qed.

(** On a site that stays on the login page, [_login] does not return. *)
Lemma login_never_returns FLOW_EMAIL FLOW_PASS :
  stays_at_login driver -> never_ok (_login driver FLOW_EMAIL FLOW_PASS).
Proof.
  intros Hstay. unfold _login.
  do 11 (apply never_ok_bind_r; intros ?).
  apply never_ok_bind_l. apply never_ok_until. apply login_page_seen, Hstay.
Qed.

Lemma bind_ok {A A'} (m : Sel (B := B) A) (k : A -> Sel (B := B) A') s a s' :
  m s = (Ok a, s') -> bind m k s = k a s'.
Proof. intros E. unfold bind. rewrite E. reflexivity. Qed.

Lemma bind_raise {A A'} (m : Sel (B := B) A) (k : A -> Sel (B := B) A') s e s' :
  m s = (Raise e, s') -> bind m k s = (Raise e, s').
Proof. intros E. unfold bind. rewrite E. reflexivity. Qed.

Lemma is_login_page_read s :
  _is_login_page driver s =
    match drv_current_url driver (fst s) with
    | (Ok url, b') => (Ok (contains LOGIN_PATH url), (b', snd s ++ [CallCurrentUrl]))
    | (Raise e, b') => (Raise e, (b', snd s ++ [CallCurrentUrl]))
    end.
Proof.
  unfold _is_login_page, bind, current_url, called.
  destruct (drv_current_url driver (fst s)) as [[url|e] b']; reflexivity.
Qed.

(** With a login that does not return, a session found on the login page
    makes the loop of [_ensure_logged_in] raise. *)
Lemma ensure_tries_stuck (login : Sel (B := B) unit) n :
  stays_at_login driver -> never_ok login ->
  never_ok (ensure_tries driver login (S n)).
Proof.
  intros Hstay Hlogin s. cbn [ensure_tries].
  pose proof (is_login_page_read s) as Hread.
  destruct (drv_current_url driver (fst s)) as [[url|e] b'] eqn:Hurl.
  - rewrite (bind_ok _ _ _ _ _ Hread), (Hstay _ _ _ Hurl). cbn [negb].
    apply never_ok_bind_l, Hlogin.
  - rewrite (bind_raise _ _ _ _ _ Hread). eauto.
Qed.

(** *** The logins a step starts *)

Definition at_most_one_login {A} (r : result A) (t : list call) : Prop :=
  logins_started t <= 1 /\ (is_ok r = true -> logins_started t = 1).

Lemma quiet_step {A} (m : Sel (B := B) A) :
  adds (Forall no_get) m -> does (fun _ t => logins_started t = 0) m.
Proof.
  intros H s. destruct (H s) as (t & E & Ht). exists t.
  split; [exact E|apply no_get_count, Ht].
Qed.

Lemma login_starts_once FLOW_EMAIL FLOW_PASS :
  does at_most_one_login (_login driver FLOW_EMAIL FLOW_PASS).
Proof.
  unfold _login.
  apply (does_bind (fun _ t => logins_started t = 1)
                   (fun _ t => logins_started t = 0)).
  - intros s. exists [CallGet (BASE ++ LOGIN_PATH)].
    unfold get, called. destruct (drv_get driver _ (fst s)). auto.
  - intros _. apply quiet_step.
    apply only_bind.
    { apply only_until; [intros; exact I|].
      unfold presence_of_element_located.
      apply only_bind; [apply only_called; exact I|]. intros; apply only_ret. }
    intros email.
    repeat (apply only_bind; [apply only_called; exact I|]; intros ?).
    apply only_bind; [|intros ?; apply only_called; exact I].
    apply only_until; [intros; exact I|].
    apply only_bind; [apply only_called; exact I|]. intros; apply only_ret.
  - intros e t H. split; [lia|discriminate].
  - intros a t1 r t2 H1 H2. unfold at_most_one_login.
    rewrite logins_started_app, H1, H2. split; [lia|auto].
Qed.

Lemma is_login_page_quiet :
  does (fun _ t => logins_started t = 0) (_is_login_page driver).
Proof.
  apply quiet_step. unfold _is_login_page.
  apply only_bind; [apply only_called; exact I|]. intros; apply only_ret.
Qed.

Lemma ensure_tries_logins (login : Sel (B := B) unit) tries :
  does at_most_one_login login ->
  does (fun r t => logins_started t <= tries /\
                   (r = Ok false -> logins_started t = tries))
       (ensure_tries driver login tries).
Proof.
  intros Hlogin. induction tries as [|n IH]; cbn [ensure_tries].
  - apply does_ret. split; [reflexivity|reflexivity].
  - apply (does_bind (fun _ t => logins_started t = 0)
             (fun r t => logins_started t <= S n /\
                         (r = Ok false -> logins_started t = S n)));
      [apply is_login_page_quiet| |intros e t H; split; [lia|discriminate]
      |intros a t1 r t2 H1 H2; rewrite logins_started_app, H1; exact H2].
    intros at_login. destruct at_login; cbn [negb];
      [|apply does_ret; split; [cbn; lia|discriminate]].
    apply (does_bind at_most_one_login
             (fun r t => logins_started t <= n /\
                         (r = Ok false -> logins_started t = n)));
      [exact Hlogin| |intros e t (H & _); split; [lia|discriminate]|].
    + intros _.
      apply (does_bind (fun _ t => logins_started t = 0)
               (fun r t => logins_started t <= n /\
                           (r = Ok false -> logins_started t = n)));
        [apply quiet_step, only_called; exact I|
        |intros e t H; split; [lia|discriminate]
        |intros a t1 r t2 H1 H2; rewrite logins_started_app, H1; exact H2].
      intros _.
      apply (does_bind (fun _ t => logins_started t = 0)
               (fun r t => logins_started t <= n /\
                           (r = Ok false -> logins_started t = n)));
        [apply is_login_page_quiet| |intros e t H; split; [lia|discriminate]
        |intros a t1 r t2 H1 H2; rewrite logins_started_app, H1; exact H2].
      intros still. destruct still; cbn [negb]; [exact IH|].
      apply does_ret. split; [cbn; lia|discriminate].
    + intros a t1 r t2 (H1 & H1') (H2 & H2'). rewrite logins_started_app.
      specialize (H1' eq_refl). split; [lia|]. intros Hr. rewrite (H2' Hr). lia.
Qed.

(** *** Scrolling *)

Lemma scroll_rounds_length rounds : forall last_h,
  adds (fun t => length t <= 3 * rounds) (scroll_rounds driver rounds last_h).
Proof.
  induction rounds as [|n IH]; intros last_h; cbn [scroll_rounds].
  - apply adds_ret. cbn. lia.
  - apply (adds_bind (fun t => length t = 1) (fun t => length t <= 2 + 3 * n));
      [apply adds_called; reflexivity| |intros t H; lia
      |intros t1 t2 H1 H2; rewrite length_app; lia].
    intros _.
    apply (adds_bind (fun t => length t = 1) (fun t => length t <= 1 + 3 * n));
      [apply adds_called; reflexivity| |intros t H; lia
      |intros t1 t2 H1 H2; rewrite length_app; lia].
    intros _.
    apply (adds_bind (fun t => length t = 1) (fun t => length t <= 3 * n));
      [apply adds_called; reflexivity| |intros t H; lia
      |intros t1 t2 H1 H2; rewrite length_app; lia].
    intros h. destruct (bool_decide (h = last_h)); [|apply IH].
    apply adds_ret. cbn. lia.
Qed.

Definition scroll_call (c : call) : Prop :=
  match c with
  | CallExecuteScript _ | CallSleep _ => True
  | _ => False
  end.

End Steps.

End SessionFacts.

Import SessionFacts.

(** X17.  [_ensure_logged_in] at once.  On a session that is not on the
    login page, [_ensure_logged_in] with at least one try allowed returns
    [True] after one look at the current URL and nothing else.  With no try
    allowed ([max_tries] zero or negative) it returns [False] without any
    call on the driver, whatever the session is. *)
Theorem ensure_logged_in_at_once
    {B : Type} (driver : WebDriver B) (FLOW_EMAIL FLOW_PASS : str)
    (max_tries : Z) (s : B * list call) :
  ((max_tries <= 0)%Z ->
     _ensure_logged_in driver FLOW_EMAIL FLOW_PASS max_tries s = (Ok false, s)) /\
  ((0 < max_tries)%Z ->
   forall url b',
     drv_current_url driver (fst s) = (Ok url, b') ->
     contains (lit "/user/login") url = false ->
     _ensure_logged_in driver FLOW_EMAIL FLOW_PASS max_tries s
       = (Ok true, (b', snd s ++ [CallCurrentUrl]))).
Proof.
  unfold _ensure_logged_in. split.
  - intros H. replace (Z.to_nat max_tries) with 0 by lia. reflexivity.
  - intros H url b' Hurl Hout.
    destruct (Z.to_nat max_tries) as [|n] eqn:E; [lia|].
    cbn [ensure_tries].
    pose proof (is_login_page_read driver s) as Hread. rewrite Hurl in Hread.
    rewrite (bind_ok _ _ _ _ _ Hread). unfold LOGIN_PATH. rewrite Hout.
    reflexivity.
Qed.

(** X18.  [_ensure_logged_in] starts at most [max_tries] logins, whatever
    the site does, and it returns [False] only after it has started all of
    them. *)
Theorem ensure_logged_in_tries
    {B : Type} (driver : WebDriver B) (FLOW_EMAIL FLOW_PASS : str)
    (max_tries : Z) (s : B * list call) :
  exists added,
    snd (snd (_ensure_logged_in driver FLOW_EMAIL FLOW_PASS max_tries s))
      = snd s ++ added /\
    logins_started added <= Z.to_nat max_tries /\
    (fst (_ensure_logged_in driver FLOW_EMAIL FLOW_PASS max_tries s) = Ok false ->
     logins_started added = Z.to_nat max_tries).
Proof.
  apply (ensure_tries_logins driver (_login driver FLOW_EMAIL FLOW_PASS)
           (Z.to_nat max_tries) (login_starts_once driver FLOW_EMAIL FLOW_PASS)).
Qed.

(** X19.  A login page that stays is never reported as [False].  On a
    site where every address read holds [/user/login], the wait that ends
    [_login] cannot succeed, [_login] has no handler for the exception, and
    so [_ensure_logged_in], with at least one try allowed, raises: it
    returns neither [True] nor [False]. *)
Theorem ensure_logged_in_stuck
    {B : Type} (driver : WebDriver B) (FLOW_EMAIL FLOW_PASS : str)
    (max_tries : Z) (s : B * list call) :
  (forall b url b',
     drv_current_url driver b = (Ok url, b') ->
     contains (lit "/user/login") url = true) ->
  (0 < max_tries)%Z ->
  exists e s',
    _ensure_logged_in driver FLOW_EMAIL FLOW_PASS max_tries s = (Raise e, s').
Proof.
  intros Hstay Hpos. unfold _ensure_logged_in.
  destruct (Z.to_nat max_tries) as [|n] eqn:E; [lia|].
  apply ensure_tries_stuck; [exact Hstay|].
  apply login_never_returns. exact Hstay.
Qed.

Lemma ensure_logged_in_stuck_witness :
  exists e s',
    _ensure_logged_in Sample.locked_site Sample.email Sample.password 3 (tt, [])
      = (Raise e, s').
Proof.
  apply (ensure_logged_in_stuck Sample.locked_site Sample.email Sample.password 3
           (tt, [])).
  - intros b url b' H. injection H as <- _. vm_compute. reflexivity.
  - lia.
Defined.

Module PageFacts.

Section Steps.

Context {B : Type}.
Variable driver : WebDriver B.
Variable urljoin : str -> str -> result str.

Lemma yields_bind {A A'} (R : A' -> Prop)
    (m : Sel (B := B) A) (k : A -> Sel (B := B) A') :
  (forall a, yields R (k a)) -> yields R (bind m k).
Proof.
  intros Hk s a' s'. unfold bind.
  destruct (m s) as [[a|e] s1]; [apply Hk|discriminate].
Qed.

Lemma yields_ret {A} (R : A -> Prop) (a : A) :
  R a -> yields R (ret (S := B * list call) a).
Proof. intros HR s a' s' E. injection E as <- _. exact HR. Qed.









End Steps.

Section Scroll.

Context {B : Type}.
Variable driver : WebDriver B.
Variable h : Z.

Lemma scroll_round_steady n last_h s :
  steady driver h ->
  exists b',
    scroll_rounds driver (S n) last_h s =
      if bool_decide (Some h = last_h)
      then (Ok tt, (b', snd s ++ round))
      else scroll_rounds driver n (Some h) (b', snd s ++ round).
Proof.
  intros (Hscroll & Hheight). cbn [scroll_rounds].
  destruct (Hscroll (fst s)) as (v & b1 & E1).
  destruct (Hheight (drv_sleep driver SCROLL_WAIT_MS b1)) as (b3 & E3).
  exists b3. unfold bind, execute_script, sleep, called. cbn [fst snd].
  rewrite E1. cbn [fst snd]. rewrite E3. unfold round.
  rewrite <- !app_assoc. cbn [app].
  destruct (bool_decide (Some h = last_h)); reflexivity.
Qed.

End Scroll.

End PageFacts.

Import PageFacts.

(** X20.  The lazy-load loop is bounded.  Whatever the browser does,
    [_full_scroll] makes at most [MAX_SCROLLS] rounds of three calls (the
    scroll script, the wait, the height script) and no other call.  On a
    page whose height does not change it stops after the second round,
    because the first height is compared with 0; it stops after the first
    round only when the height is 0. *)
Theorem full_scroll_bounded
    {B : Type} (driver : WebDriver B) (s : B * list call) :
  (exists added,
     snd (snd (_full_scroll driver s)) = snd s ++ added /\
     length added <= 3 * MAX_SCROLLS /\
     Forall (fun c => match c with
                      | CallExecuteScript _ | CallSleep _ => True
                      | _ => False
                      end) added) /\
  (forall h, steady driver h ->
     exists b',
       _full_scroll driver s =
         (Ok tt, (b', snd s ++ (if (h =? 0)%Z then round else round ++ round)))).
Proof.
  split.
  - destruct (scroll_rounds_length driver MAX_SCROLLS (Some 0%Z) s) as (t1 & E1 & H1).
    destruct (only_scroll driver scroll_call
                (fun _ => I) (fun _ => I) MAX_SCROLLS (Some 0%Z) s) as (t2 & E2 & H2).
    unfold _full_scroll. exists t1. split; [exact E1|]. split; [exact H1|].
    rewrite E1 in E2. apply app_inv_head in E2. subst t2. exact H2.
  - intros h Hsteady. unfold _full_scroll, MAX_SCROLLS.
    destruct (scroll_round_steady driver h 9 (Some 0%Z) s Hsteady) as (b1 & E1).
    rewrite E1. destruct (h =? 0)%Z eqn:Hz.
    + apply Z.eqb_eq in Hz. subst h. rewrite bool_decide_eq_true_2 by reflexivity.
      eauto.
    + apply Z.eqb_neq in Hz. rewrite bool_decide_eq_false_2 by congruence.
      destruct (scroll_round_steady driver h 8 (Some h) (b1, snd s ++ round) Hsteady)
        as (b2 & E2).
      rewrite E2, bool_decide_eq_true_2 by reflexivity. cbn [snd].
      rewrite <- app_assoc. eauto.
Qed.



(* ===================================================================== *)
(** ** Further properties: the session of the streaming harvester *)
(* ===================================================================== *)

Module FlowFacts.

Section Steps.

Context {B : Type}.
Variable driver : WebDriver B.
Variables FLOW_EMAIL FLOW_PASS : str.
Variable uniform : nat -> N -> N -> N.

Abbreviation slow_pause := (Flow.slow_pause driver uniform).
Abbreviation first_found := (Flow.first_found (B := B)).

(** *** Values *)

Lemma yields_after {A A'} (R1 : A -> Prop) (R : A' -> Prop)
    (m : Sel (B := B) A) (k : A -> Sel (B := B) A') :
  yields R1 m -> (forall a, R1 a -> yields R (k a)) -> yields R (bind m k).
Proof.
  intros Hm Hk s a' s'. unfold bind.
  destruct (m s) as [[a|e] s1] eqn:E; [|discriminate].
  apply (Hk a (Hm _ _ _ E)).
Qed.

Lemma yields_try {A} (R : A -> Prop)
    (m : Sel (B := B) A) (h : exn -> Sel (B := B) A) :
  yields R m -> (forall e, yields R (h e)) -> yields R (try_except m h).
Proof.
  intros Hm Hh s a s'. unfold try_except.
  destruct (m s) as [[a0|e] s1] eqn:E.
  - intros H. injection H as <- <-. apply (Hm _ _ _ E).
  - apply Hh.
Qed.

Lemma yields_except_timeout {A} (R : A -> Prop) (m h : Sel (B := B) A) :
  yields R m -> yields R h -> yields R (Flow.except_timeout m h).
Proof.
  intros Hm Hh s a s'. unfold Flow.except_timeout.
  destruct (m s) as [[a0|e] s1] eqn:E.
  - intros H. injection H as <- <-. apply (Hm _ _ _ E).
  - destruct (exn_class_of e); try discriminate. apply Hh.
Qed.

Lemma any_value {A} (m : Sel (B := B) A) : yields (fun _ => True) m.
Proof. intros s a s' _. exact I. Qed.

Lemma url_at_login :
  stays_at_login driver ->
  yields (fun url => contains LOGIN_PATH url = true) (current_url driver).
Proof.
  intros Hstay s url s'. unfold current_url, called.
  destruct (drv_current_url driver (fst s)) as [r b'] eqn:E.
  intros H. injection H as -> _. apply (Hstay _ _ _ E).
Qed.

(** On a site that stays on the login page, [_login] does not return
    [True]. *)
Lemma login_false_when_stuck :
  stays_at_login driver ->
  yields (fun ok => ok = false)
         (Flow._login driver FLOW_EMAIL FLOW_PASS uniform).
Proof.
  intros Hstay. unfold Flow._login.
  apply yields_try; [|intros e; apply PageFacts.yields_ret; reflexivity].
  do 3 (apply PageFacts.yields_bind; intros ?).
  apply (yields_after _ _ _ _ (url_at_login Hstay)). intros url Hurl.
  rewrite Hurl. cbn [negb].
  apply PageFacts.yields_bind. intros [email_field|];
    [|apply PageFacts.yields_ret; reflexivity].
  apply PageFacts.yields_bind. intros [password_field|];
    [|apply PageFacts.yields_ret; reflexivity].
  apply PageFacts.yields_bind. intros [submit_button|];
    [|apply PageFacts.yields_ret; reflexivity].
  destruct (Flow.is_empty FLOW_EMAIL || Flow.is_empty FLOW_PASS);
    [apply PageFacts.yields_ret; reflexivity|].
  do 7 (apply PageFacts.yields_bind; intros ?).
  apply yields_except_timeout; [|apply PageFacts.yields_ret; reflexivity].
  do 2 (apply PageFacts.yields_bind; intros ?).
  apply (yields_after _ _ _ _ (url_at_login Hstay)). intros url' Hurl'.
  rewrite Hurl'. apply PageFacts.yields_ret. reflexivity.
Qed.

Lemma login_total s :
  exists ok s', Flow._login driver FLOW_EMAIL FLOW_PASS uniform s = (Ok ok, s').
Proof.
  unfold Flow._login, try_except.
  match goal with |- context [match ?m s with _ => _ end] =>
    destruct (m s) as [[ok|e] s1] end; cbn; eauto.
Qed.

(** *** Calls *)

Section Quiet.

Variable P : call -> Prop.
Hypothesis Pget : forall url, P (CallGet url).
Hypothesis Purl : P CallCurrentUrl.
Hypothesis Pfind : forall l, P (CallFindElement l).
Hypothesis Pdisplayed : forall e, P (CallIsDisplayed e).
Hypothesis Penabled : forall e, P (CallIsEnabled e).
Hypothesis Psleep : forall ms, P (CallSleep ms).

Lemma only_slow_pause lo hi : adds (Forall P) (slow_pause lo hi).
Proof.
  intros s. unfold Flow.slow_pause.
  apply (only_called P (CallSleep (uniform (length (snd s)) lo hi)) _ (Psleep _) s).
Qed.

Lemma only_first_found {A} (attempt : locator -> Sel (B := B) A) selectors :
  (forall sel, adds (Forall P) (attempt sel)) ->
  adds (Forall P) (first_found attempt selectors).
Proof.
  intros Ha. induction selectors as [|sel rest IH]; cbn [Flow.first_found].
  - apply only_ret.
  - apply only_try; [|intros _; exact IH].
    apply only_bind; [apply Ha|]. intros; apply only_ret.
Qed.

Lemma only_except_timeout {A} (m h : Sel (B := B) A) :
  adds (Forall P) m -> adds (Forall P) h ->
  adds (Forall P) (Flow.except_timeout m h).
Proof.
  intros Hm Hh s. unfold Flow.except_timeout.
  destruct (Hm s) as (t1 & E1 & H1).
  destruct (m s) as [[a|e] s1]; cbn [snd] in E1.
  - exists t1. split; [exact E1|exact H1].
  - destruct (Hh s1) as (t2 & E2 & H2).
    destruct (exn_class_of e);
      try (exists t1; split; [exact E1|exact H1]).
    exists (t1 ++ t2). rewrite E2, E1, app_assoc. split; [reflexivity|].
    apply Forall_app. split; assumption.
Qed.

Lemma only_clickable sel : adds (Forall P) (element_to_be_clickable driver sel).
Proof.
  unfold element_to_be_clickable.
  apply only_bind; [apply only_called, Pfind|]. intros e.
  apply only_bind; [apply only_called, Pdisplayed|]. intros [|]; [|apply only_ret].
  apply only_bind; [apply only_called, Penabled|]. intros en. apply only_ret.
Qed.

(** Without one of the credentials, [_login] only loads the page, waits,
    reads the address and looks for the fields. *)
Lemma login_without_credentials :
  Flow.is_empty FLOW_EMAIL || Flow.is_empty FLOW_PASS = true ->
  adds (Forall P) (Flow._login driver FLOW_EMAIL FLOW_PASS uniform).
Proof.
  intros Hempty. unfold Flow._login. rewrite Hempty.
  apply only_try; [|intros e; apply only_ret].
  apply only_bind; [apply only_called, Pget|]. intros _.
  apply only_bind.
  { apply only_until; [exact Psleep|]. unfold presence_of_element_located.
    apply only_bind; [apply only_called, Pfind|]. intros; apply only_ret. }
  intros _. apply only_bind; [apply only_slow_pause|]. intros _.
  apply only_bind; [apply only_called, Purl|]. intros url.
  destruct (negb (contains LOGIN_PATH url)); [apply only_ret|].
  apply only_bind.
  { apply only_first_found. intros sel.
    apply only_until; [exact Psleep|]. apply only_clickable. }
  intros [email_field|]; [|apply only_ret].
  apply only_bind.
  { apply only_first_found. intros sel. apply only_called, Pfind. }
  intros [password_field|]; [|apply only_ret].
  apply only_bind.
  { apply only_first_found. intros sel. apply only_called, Pfind. }
  intros [submit_button|]; apply only_ret.
Qed.

End Quiet.

(** *** Scrolling *)

Variable SCROLL_WAIT_MS : N.

Lemma scroll_rounds_calls rounds : forall last_h,
  adds (fun t => length t <= 3 * rounds /\ Forall scroll_call t)
       (Flow.scroll_rounds driver SCROLL_WAIT_MS rounds last_h).
Proof.
  induction rounds as [|n IH]; intros last_h; cbn [Flow.scroll_rounds].
  - apply adds_ret. split; [cbn; lia|constructor].
  - apply (adds_bind (fun t => length t = 1 /\ Forall scroll_call t)
                     (fun t => length t <= 2 + 3 * n /\ Forall scroll_call t));
      [apply adds_called; repeat constructor| |intros t (H & H'); split; [lia|exact H']
      |intros t1 t2 (H1 & H1') (H2 & H2'); rewrite length_app;
       split; [lia|apply Forall_app; auto]].
    intros _.
    apply (adds_bind (fun t => length t = 1 /\ Forall scroll_call t)
                     (fun t => length t <= 1 + 3 * n /\ Forall scroll_call t));
      [apply adds_called; repeat constructor| |intros t (H & H'); split; [lia|exact H']
      |intros t1 t2 (H1 & H1') (H2 & H2'); rewrite length_app;
       split; [lia|apply Forall_app; auto]].
    intros _.
    apply (adds_bind (fun t => length t = 1 /\ Forall scroll_call t)
                     (fun t => length t <= 3 * n /\ Forall scroll_call t));
      [apply adds_called; repeat constructor| |intros t (H & H'); split; [lia|exact H']
      |intros t1 t2 (H1 & H1') (H2 & H2'); rewrite length_app;
       split; [lia|apply Forall_app; auto]].
    intros h. destruct (bool_decide (h = last_h)); [|apply IH].
    apply adds_ret. split; [cbn; lia|constructor].
Qed.

Lemma full_scroll_calls MAX_SCROLLS :
  adds (fun t => length t <= 1 + 3 * Z.to_nat MAX_SCROLLS /\ Forall scroll_call t)
       (Flow._full_scroll driver MAX_SCROLLS SCROLL_WAIT_MS).
Proof.
  unfold Flow._full_scroll.
  apply (adds_bind (fun t => length t = 1 /\ Forall scroll_call t)
                   (fun t => length t <= 3 * Z.to_nat MAX_SCROLLS
                             /\ Forall scroll_call t));
    [apply adds_called; repeat constructor| |intros t (H & H'); split; [lia|exact H']
    |intros t1 t2 (H1 & H1') (H2 & H2'); rewrite length_app;
     split; [lia|apply Forall_app; auto]].
  intros h. apply scroll_rounds_calls.
Qed.

Lemma first_round_steady h n s :
  Flow.steady_page driver h ->
  exists b',
    Flow.scroll_rounds driver SCROLL_WAIT_MS (S n) (Some h) s
      = (Ok tt, (b', snd s ++ Flow.scroll_round SCROLL_WAIT_MS)).
Proof.
  intros (Hscroll & Hheight). cbn [Flow.scroll_rounds].
  destruct (Hscroll (fst s)) as (v & b1 & E1).
  destruct (Hheight (drv_sleep driver SCROLL_WAIT_MS b1)) as (b3 & E3).
  exists b3. unfold bind, execute_script, sleep, called. cbn [fst snd].
  rewrite E1. cbn [fst snd]. rewrite E3. unfold Flow.scroll_round.
  rewrite <- !app_assoc. cbn [app].
  rewrite bool_decide_eq_true_2 by reflexivity. reflexivity.
Qed.

End Steps.

End FlowFacts.

(** X22.  The login of the streaming harvester never raises.  Whatever
    the site and the browser do, [_login] of flow_events.py returns a
    boolean: every exception is turned into [False].  On a site where
    every address read holds [/user/login] it returns [False] (where the
    [_login] of 01EventosPast.py raises). *)
Theorem flow_login_never_raises
    {B : Type} (driver : WebDriver B) (FLOW_EMAIL FLOW_PASS : str)
    (uniform : nat -> N -> N -> N) (s : B * list call) :
  (exists ok s',
     Flow._login driver FLOW_EMAIL FLOW_PASS uniform s = (Ok ok, s')) /\
  ((forall b url b',
      drv_current_url driver b = (Ok url, b') ->
      contains (lit "/user/login") url = true) ->
   exists s',
     Flow._login driver FLOW_EMAIL FLOW_PASS uniform s = (Ok false, s')).
Proof.
  destruct (FlowFacts.login_total driver FLOW_EMAIL FLOW_PASS uniform s)
    as (ok & s' & E).
  split; [eauto|]. intros Hstay.
  rewrite (FlowFacts.login_false_when_stuck driver FLOW_EMAIL FLOW_PASS uniform
             Hstay _ _ _ E) in E.
  eauto.
Qed.

(** X23.  No credentials, nothing typed.  When [FLOW_EMAIL] or [FLOW_PASS]
    is empty, [_login] of flow_events.py clears no field, sends no key and
    clicks nothing: it loads the login page, looks at the address and at
    the form, and gives up. *)
Theorem flow_login_needs_credentials
    {B : Type} (driver : WebDriver B) (FLOW_EMAIL FLOW_PASS : str)
    (uniform : nat -> N -> N -> N) (s : B * list call) :
  FLOW_EMAIL = [] \/ FLOW_PASS = [] ->
  exists added,
    snd (snd (Flow._login driver FLOW_EMAIL FLOW_PASS uniform s)) = snd s ++ added /\
    Forall (fun c => match c with
                     | CallClear _ | CallSendKeys _ _ | CallClick _ => False
                     | _ => True
                     end) added.
Proof.
  intros Hempty.
  apply (FlowFacts.login_without_credentials driver FLOW_EMAIL FLOW_PASS uniform
           (fun c => match c with
                     | CallClear _ | CallSendKeys _ _ | CallClick _ => False
                     | _ => True
                     end)); try (intros; exact I).
  destruct Hempty as [-> | ->]; [reflexivity|apply orb_true_r].
Qed.

Lemma flow_login_needs_credentials_witness :
  exists added,
    snd (snd (Flow._login Sample.stuck_site [] Sample.password Sample.shortest
                Sample.expired))
      = snd Sample.expired ++ added /\
    Forall (fun c => match c with
                     | CallClear _ | CallSendKeys _ _ | CallClick _ => False
                     | _ => True
                     end) added.
Proof.
  apply (flow_login_needs_credentials Sample.stuck_site [] Sample.password
           Sample.shortest Sample.expired).
  left. reflexivity.
Defined.

(** X24.  The lazy-load loop of the streaming harvester.  [_full_scroll]
    of flow_events.py reads the height once and then makes at most
    [MAX_SCROLLS] rounds of three calls, and no other call; with
    [MAX_SCROLLS] zero or negative it only reads the height.  On a page
    whose height does not change it stops after the first round. *)
Theorem flow_full_scroll_bounded
    {B : Type} (driver : WebDriver B) (MAX_SCROLLS : Z) (SCROLL_WAIT_MS : N)
    (s : B * list call) :
  (exists added,
     snd (snd (Flow._full_scroll driver MAX_SCROLLS SCROLL_WAIT_MS s))
       = snd s ++ added /\
     length added <= 1 + 3 * Z.to_nat MAX_SCROLLS /\
     Forall (fun c => match c with
                      | CallExecuteScript _ | CallSleep _ => True
                      | _ => False
                      end) added) /\
  ((MAX_SCROLLS <= 0)%Z ->
     snd (snd (Flow._full_scroll driver MAX_SCROLLS SCROLL_WAIT_MS s))
       = snd s ++ [CallExecuteScript Flow.HEIGHT_SCRIPT]) /\
  (forall h, Flow.steady_page driver h -> (0 < MAX_SCROLLS)%Z ->
     exists b',
       Flow._full_scroll driver MAX_SCROLLS SCROLL_WAIT_MS s =
         (Ok tt, (b', snd s ++ CallExecuteScript Flow.HEIGHT_SCRIPT
                              :: Flow.scroll_round SCROLL_WAIT_MS))).
Proof.
  split; [|split].
  - destruct (FlowFacts.full_scroll_calls driver SCROLL_WAIT_MS MAX_SCROLLS s)
      as (t & E & Hlen & Hcalls).
    exists t. auto.
  - intros Hle. unfold Flow._full_scroll.
    replace (Z.to_nat MAX_SCROLLS) with 0 by lia.
    unfold bind, execute_script, called.
    destruct (drv_execute_script driver Flow.HEIGHT_SCRIPT (fst s)) as [[v|e] b'];
      reflexivity.
  - intros h Hsteady Hpos. unfold Flow._full_scroll.
    destruct (Z.to_nat MAX_SCROLLS) as [|n] eqn:En; [lia|].
    pose proof Hsteady as (_ & Hheight).
    destruct (Hheight (fst s)) as (b1 & E1).
    unfold bind at 1, execute_script at 1, called. rewrite E1.
    destruct (FlowFacts.first_round_steady driver SCROLL_WAIT_MS h n
                (b1, snd s ++ [CallExecuteScript Flow.HEIGHT_SCRIPT]) Hsteady)
      as (b' & E').
    rewrite E'. cbn [snd]. rewrite <- app_assoc. eauto.
Qed.
